(** * Self-healing code workflow (memory_management notebook, second part)

    A shallow embedding of the LangGraph workflow that runs a target
    function, and on failure writes a bug report, searches / updates /
    extends its list of memories, asks for a fix, installs it with [exec]
    and runs the function again.

    Python objects are mutable and nodes return the [State] they received;
    here every node is a function from a state to the next state, threaded
    through a small monad that carries the outside world (reasoning service,
    interpreter) and Python exceptions. *)

From Stdlib Require Import ZArith Ascii.
From stdpp Require Import base option list strings gmap.

Open Scope string_scope.

(** ** Python values and exceptions *)

(** What [json.loads] can return, and what an argument list can hold. A float
    is kept as the decimal literal it was read from: no arithmetic is ever
    done on it, it only has to be told apart from an [int]. *)
#[local] Set Warnings "-register-all".
Inductive PyVal : Type :=
| PNone
| PBool (b : bool)
| PInt (z : Z)
| PFloat (mantissa exponent : Z)
| PStr (s : string)
| PList (l : list PyVal)
| PDict (d : list (string * PyVal)).

(** [type(v).__name__] *)
Definition type_name (v : PyVal) : string :=
  match v with
  | PNone => "NoneType"
  | PBool _ => "bool"
  | PInt _ => "int"
  | PFloat _ _ => "float"
  | PStr _ => "str"
  | PList _ => "list"
  | PDict _ => "dict"
  end.

(** [bool(v)], as used by [if state.memory_indexes_to_update:] *)
Definition truthy (v : PyVal) : bool :=
  match v with
  | PNone => false
  | PBool b => b
  | PInt z => negb (z =? 0)%Z
  | PFloat m _ => negb (m =? 0)%Z
  | PStr s => negb (String.eqb s "")
  | PList l => match l with [] => false | _ => true end
  | PDict d => match d with [] => false | _ => true end
  end.

Inductive ExcClass : Type :=
| IndexError
| TypeError
| KeyError
| AttributeError
| ZeroDivisionError
| SyntaxError
| JSONDecodeError
| OtherException (name : string)
| KeyboardInterrupt
| SystemExit.

(** An exception object: its class and [str(e)]. *)
Record Exc : Type := mkExc { exc_class : ExcClass; exc_str : string }.

(** [isinstance(e, Exception)]: what [except Exception] catches. *)
Definition is_Exception (e : Exc) : bool :=
  match exc_class e with
  | KeyboardInterrupt | SystemExit => false
  | _ => true
  end.

Inductive Res (A : Type) : Type :=
| Ok (a : A)
| Raise (e : Exc).
Arguments Ok {A} a.
Arguments Raise {A} e.

(** ** Lists indexed the Python way *)

(** The position [l[v]] addresses in a list of length [len]: an [int] (or a
    [bool], which is an [int]) from [-len] to [len - 1], negative ones
    counting from the end. [what] is the word the interpreter puts in the
    message ("index" on reads, "assignment index" on writes). *)
Definition py_index (what : string) (len : nat) (v : PyVal) : Res nat :=
  let of_int (z : Z) : Res nat :=
    if (0 <=? z)%Z && (z <? Z.of_nat len)%Z then Ok (Z.to_nat z)
    else if (- Z.of_nat len <=? z)%Z && (z <? 0)%Z then Ok (Z.to_nat (Z.of_nat len + z))
    else Raise (mkExc IndexError ("list " ++ what ++ " out of range")) in
  match v with
  | PInt z => of_int z
  | PBool b => of_int (if b then 1 else 0)%Z
  | _ => Raise (mkExc TypeError
                  ("list indices must be integers or slices, not " ++ type_name v))
  end.

(** [q.pop(0)] on whatever [q] is: the front element and the rest for a
    non-empty list; [IndexError] for the empty list; [KeyError] for a dict
    decoded from JSON (its keys are strings, never [0]); [AttributeError]
    for anything else. *)
Definition pop0 (q : PyVal) : Res (PyVal * PyVal) :=
  match q with
  | PList (v :: rest) => Ok (v, PList rest)
  | PList [] => Raise (mkExc IndexError "pop from empty list")
  | PDict _ => Raise (mkExc KeyError "0")
  | _ => Raise (mkExc AttributeError
                  ("'" ++ type_name q ++ "' object has no attribute 'pop'"))
  end.

(** [l[v]] *)
Definition list_getitem (l : list string) (v : PyVal) : Res string :=
  match py_index "index" (length l) v with
  | Ok i => match l !! i with
            | Some x => Ok x
            | None => Raise (mkExc IndexError "list index out of range")
            end
  | Raise e => Raise e
  end.

(** [l[v] = x] *)
Definition list_setitem (l : list string) (v : PyVal) (x : string)
  : Res (list string) :=
  match py_index "assignment index" (length l) v with
  | Ok i => Ok (<[i:=x]> l)
  | Raise e => Raise e
  end.

(** [d[k]] on a namespace *)
Definition dict_getitem {V : Type} (d : gmap string V) (k : string) : Res V :=
  match d !! k with
  | Some v => Ok v
  | None => Raise (mkExc KeyError ("'" ++ k ++ "'"))
  end.

(** ** Prompts

    A prompt is the template of a node with the state fields it
    interpolates; the reasoning service sees nothing else of the state. *)
Inductive Prompt : Type :=
| UpdateCodePrompt (function_string error_description : string)
| BugReportPrompt (function_string error_description : string)
| MemorySearchPrompt (bug_report : string) (memories : list string)
| MemoryGenerationPrompt (bug_report : string)
| MemoryModificationPrompt (bug_report memory_to_update : string).

(** ** The graph: node names and routing decisions *)
Inductive Node : Type :=
| N_run_code
| N_update_code
| N_fix_code
| N_bug_report_node
| N_memory_search_node
| N_memory_modification_node
| N_memory_generation_node.

Inductive Next : Type :=
| Goto (n : Node)
| END.

Global Instance Node_eq_dec : EqDecision Node.
Proof. solve_decision. Defined.

(** How far a run has got: it reached [END], it was stopped by an exception
    that no node caught, or it is about to execute [next]. *)
Inductive Status : Type :=
| Finished
| Crashed (e : Exc)
| Running (next : Node).

Section Workflow.

(** Python objects that can stand in call position, and the world outside
    the workflow: the reasoning service and whatever the target function
    and the executed fix text can observe. *)
Context {Callable World : Type}.

(** [class State(BaseModel)]. [memory_indexes_to_update] is declared a
    list, but attribute assignment is not validated, so it holds
    whatever [json.loads] returned. Memory records are the stripped texts
    the reasoning service answered. *)
Record State : Type := mkState {
  function : Callable;
  function_string : string;
  arguments : list PyVal;
  error : bool;
  error_description : string;
  new_function_string : string;
  bug_report : string;
  memories : list string;
  memory_indexes_to_update : PyVal
}.

Definition set_function (f : Callable) (s : State) : State :=
  mkState f (function_string s) (arguments s) (error s) (error_description s)
    (new_function_string s) (bug_report s) (memories s)
    (memory_indexes_to_update s).
Definition set_error (b : bool) (s : State) : State :=
  mkState (function s) (function_string s) (arguments s) b
    (error_description s) (new_function_string s) (bug_report s)
    (memories s) (memory_indexes_to_update s).
Definition set_error_description (d : string) (s : State) : State :=
  mkState (function s) (function_string s) (arguments s) (error s) d
    (new_function_string s) (bug_report s) (memories s)
    (memory_indexes_to_update s).
Definition set_new_function_string (c : string) (s : State) : State :=
  mkState (function s) (function_string s) (arguments s) (error s)
    (error_description s) c (bug_report s) (memories s)
    (memory_indexes_to_update s).
Definition set_bug_report (r : string) (s : State) : State :=
  mkState (function s) (function_string s) (arguments s) (error s)
    (error_description s) (new_function_string s) r (memories s)
    (memory_indexes_to_update s).
Definition set_memories (m : list string) (s : State) : State :=
  mkState (function s) (function_string s) (arguments s) (error s)
    (error_description s) (new_function_string s) (bug_report s) m
    (memory_indexes_to_update s).
Definition set_memory_indexes_to_update (q : PyVal) (s : State) : State :=
  mkState (function s) (function_string s) (arguments s) (error s)
    (error_description s) (new_function_string s) (bug_report s)
    (memories s) q.

(** *** Computations: world passing with exceptions *)
Definition M (A : Type) : Type := World -> Res A * World.

Definition ret {A : Type} (a : A) : M A := fun w => (Ok a, w).
Definition lift {A : Type} (r : Res A) : M A := fun w => (r, w).
Definition bind {A B : Type} (m : M A) (k : A -> M B) : M B :=
  fun w => match m w with
           | (Ok a, w') => k a w'
           | (Raise e, w') => (Raise e, w')
           end.

(** [try: m  except Exception as e: h e] *)
Definition try_except {A : Type} (m : M A) (h : Exc -> M A) : M A :=
  fun w => match m w with
           | (Ok a, w') => (Ok a, w')
           | (Raise e, w') =>
               if is_Exception e then h e w' else (Raise e, w')
           end.

Notation "x <- m ;; k" := (bind m (fun x => k))
  (at level 100, m at next level, right associativity).

(** *** The outside world *)

(** the call of [f] on an unpacked argument list *)
Variable call : Callable -> list PyVal -> M PyVal.
(** [inspect.getsource(f)] *)
Variable getsource : Callable -> Res string.
(** [llm.invoke([HumanMessage(content=prompt.format(..))]).content.strip()] *)
Variable llm_invoke : Prompt -> M string.
(** [json.loads(text)] *)
Variable json_loads : string -> Res PyVal.
(** [exec(code, namespace)] on [namespace = {}]: the names the code bound *)
Variable exec : string -> M (gmap string Callable).

(** *** Code healing nodes *)

Definition run_code (state : State) : M State :=
  try_except
    (result <- call (function state) (arguments state) ;;
     ret state)
    (fun e =>
       ret (set_error_description (exc_str e) (set_error true state))).

Definition update_code (state : State) : M State :=
  new_function_string <- llm_invoke
    (UpdateCodePrompt (function_string state) (error_description state)) ;;
  ret (set_new_function_string new_function_string state).

Definition fix_code (state : State) : M State :=
  try_except
    (let new_code := new_function_string state in
     namespace <- exec new_code ;;
     new_divide <- lift (dict_getitem namespace "divide_two_numbers") ;;
     ret (set_error false (set_function new_divide state)))
    (fun e => ret state).

(** *** Bug reporting nodes *)

Definition bug_report_node (state : State) : M State :=
  bug_report <- llm_invoke
    (BugReportPrompt (function_string state) (error_description state)) ;;
  ret (set_bug_report bug_report state).

Definition memory_search_node (state : State) : M State :=
  response <- llm_invoke
    (MemorySearchPrompt (bug_report state) (memories state)) ;;
  memory_indexes_to_update <- lift (json_loads response) ;;
  ret (set_memory_indexes_to_update memory_indexes_to_update state).

Definition memory_generation_node (state : State) : M State :=
  response <- llm_invoke (MemoryGenerationPrompt (bug_report state)) ;;
  ret (set_memories (memories state ++ [response]) state).

Definition memory_modification_node (state : State) : M State :=
  popped <- lift (pop0 (memory_indexes_to_update state)) ;;
  let memory_to_update_index := fst popped in
  let state := set_memory_indexes_to_update (snd popped) state in
  memory_to_update <- lift
    (list_getitem (memories state) memory_to_update_index) ;;
  response <- llm_invoke
    (MemoryModificationPrompt (bug_report state) memory_to_update) ;;
  memories' <- lift
    (list_setitem (memories state) memory_to_update_index response) ;;
  ret (set_memories memories' state).

(** *** Edge functions *)

Definition error_router (state : State) : Next :=
  if error state then Goto N_bug_report_node else END.

Definition modification_router (state : State) : Next :=
  if truthy (memory_indexes_to_update state)
  then Goto N_memory_modification_node
  else Goto N_memory_generation_node.

Definition update_memory (state : State) : Next :=
  if truthy (memory_indexes_to_update state)
  then Goto N_memory_modification_node
  else Goto N_update_code.

(** *** The workflow: [builder.add_node], [add_edge],
    [add_conditional_edges] *)

Definition node_fn (n : Node) : State -> M State :=
  match n with
  | N_run_code => run_code
  | N_update_code => update_code
  | N_fix_code => fix_code
  | N_bug_report_node => bug_report_node
  | N_memory_search_node => memory_search_node
  | N_memory_modification_node => memory_modification_node
  | N_memory_generation_node => memory_generation_node
  end.

Definition edge (n : Node) (state : State) : Next :=
  match n with
  | N_run_code => error_router state
  | N_bug_report_node => Goto N_memory_search_node
  | N_memory_search_node => modification_router state
  | N_memory_generation_node => Goto N_update_code
  | N_memory_modification_node => update_memory state
  | N_update_code => Goto N_fix_code
  | N_fix_code => Goto N_run_code
  end.

Definition entry_point : Node := N_run_code.

(** Modelled from the spec: the graph executor ([graph.stream] of the
    LangGraph library, which is not part of this repository). Section 4.1:
    invoke the current node, emit its name with the state it returned, ask
    the node's router or follow its edge, stop at the terminal sentinel;
    no visited set, no cycle detection, no bound. [fuel] counts the node
    executions observed so far, it is not a limit of the executor. *)
Fixpoint stream (fuel : nat) (current : Node) (state : State) (w : World)
  : list (Node * State) * Status :=
  match fuel with
  | O => ([], Running current)
  | S fuel' =>
      match node_fn current state w with
      | (Raise e, _) => ([], Crashed e)
      | (Ok state', w') =>
          match edge current state' with
          | END => ([(current, state')], Finished)
          | Goto next =>
              let (outputs, status) := stream fuel' next state' w' in
              ((current, state') :: outputs, status)
          end
      end
  end.

(** *** Main function *)

(** What the caller of [run_self_healing_code_system] observes. *)
Inductive RunResult : Type :=
| Returned (last_state : Node * State)
| Raised (e : Exc)
| Unfinished.

Definition initial_state (function : Callable) (source : string)
    (arguments : list PyVal) : State :=
  mkState function source arguments false "" "" "" [] (PList []).

Definition run_self_healing_code_system (fuel : nat) (function : Callable)
    (arguments : list PyVal) (w : World) : RunResult :=
  match getsource function with
  | Raise e => Raised e
  | Ok source =>
      let state := initial_state function source arguments in
      match stream fuel entry_point state w with
      | (outputs, Finished) =>
          match last outputs with
          | Some last_state => Returned last_state
          | None => Raised (mkExc (OtherException "UnboundLocalError")
                              "local variable 'last_state' referenced before assignment")
          end
      | (_, Crashed e) => Raised e
      | (_, Running _) => Unfinished
      end
  end.

End Workflow.

(** ** What the design document asks of fix application

    Section 4.5 in its own words, next to [fix_code]: load the pending fix
  text, extract the symbol matching the operation's name, and only if
  that succeeds replace the operation. [name_of] is [f.__name__]. *)
Definition apply_fix_spec {Callable World : Type}
  (exec : string -> World -> Res (gmap string Callable) * World)
  (name_of : Callable -> string)
  (state : State (Callable := Callable)) : M (World := World) State :=
try_except
  (bind (exec (new_function_string state)) (fun namespace =>
   bind (lift (dict_getitem namespace (name_of (function state))))
     (fun replacement => ret (set_function replacement state))))
  (fun e => ret state).

(** The values Python refuses as an index into a list of length [len]:
  integers below [-len] or from [len] on, and everything that is not an
  integer. *)
Definition invalid_index (len : nat) (v : PyVal) : bool :=
match v with
| PInt z => (z <? - Z.of_nat len)%Z || (Z.of_nat len <=? z)%Z
| PBool b => (Z.of_nat len <=? (if b then 1 else 0))%Z
| _ => true
end.

(** Routing between two consecutive outputs of a run, [prev] emitted just
  before [cur]: memory generation only straight after a memory search that
  left an empty queue; a non-empty queue after search or update always
  leads to the update node; after an update comes another update or the
  fix proposal. *)
Definition routed {Callable : Type}
  (prev cur : Node * State (Callable := Callable)) : Prop :=
(cur.1 = N_memory_generation_node ->
   prev.1 = N_memory_search_node /\
   truthy (memory_indexes_to_update prev.2) = false /\
   (forall l, memory_indexes_to_update prev.2 = PList l -> l = [])) /\
(prev.1 = N_memory_search_node \/ prev.1 = N_memory_modification_node ->
   truthy (memory_indexes_to_update prev.2) = true ->
   cur.1 = N_memory_modification_node) /\
(prev.1 = N_memory_modification_node ->
   cur.1 = N_memory_modification_node \/ cur.1 = N_update_code).

(** ** Recorded sessions

  Concrete worlds to run the workflow in: four target functions, a
  reasoning service that answers each kind of prompt with a fixed text, and
  an interpreter that knows the texts those answers use. Python 3.10, as
  in the notebook's kernel. *)
Module Scenario.

Inductive Fn : Type :=
| divide_two_numbers          (* return a // b *)
| divide_two_numbers_fixed    (* 'Error: ...' if b == 0 else a // b *)
| modulo_two_numbers          (* return a % b *)
| modulo_two_numbers_fixed.   (* 'Error: ...' if b == 0 else a % b *)

Definition name_of (f : Fn) : string :=
  match f with
  | divide_two_numbers | divide_two_numbers_fixed => "divide_two_numbers"
  | modulo_two_numbers | modulo_two_numbers_fixed => "modulo_two_numbers"
  end.

Definition divide_source : string :=
  "def divide_two_numbers(a, b): return a // b".
Definition divide_fix : string :=
  "def divide_two_numbers(a, b): return 'Error: division by zero' if b == 0 else a // b".
Definition modulo_source : string :=
  "def modulo_two_numbers(a, b): return a % b".
Definition modulo_fix : string :=
  "def modulo_two_numbers(a, b): return 'Error: modulo by zero' if b == 0 else a % b".

Definition newline : string := String (Ascii.ascii_of_nat 10) EmptyString.

Definition source (f : Fn) : string :=
  match f with
  | divide_two_numbers => divide_source ++ newline
  | divide_two_numbers_fixed => divide_fix ++ newline
  | modulo_two_numbers => modulo_source ++ newline
  | modulo_two_numbers_fixed => modulo_fix ++ newline
  end.

Definition getsource (f : Fn) : Res string := Ok (source f).

(** Stands for whatever Python does outside the recorded cases; no run
    below ever meets it. *)
Definition not_modelled : Exc := mkExc (OtherException "NotModelled") "".

Definition as_int (v : PyVal) : option Z :=
  match v with
  | PInt z => Some z
  | PBool b => Some (if b then 1 else 0)%Z
  | _ => None
  end.

Definition zero_division : Exc :=
  mkExc ZeroDivisionError "integer division or modulo by zero".

(** The four functions on two integers; a call with fewer than two
    arguments is the interpreter's [TypeError]. *)
Definition apply (f : Fn) (args : list PyVal) : Res PyVal :=
  match args with
  | [] => Raise (mkExc TypeError
      (name_of f ++ "() missing 2 required positional arguments: 'a' and 'b'"))
  | [_] => Raise (mkExc TypeError
      (name_of f ++ "() missing 1 required positional argument: 'b'"))
  | [x; y] =>
      match as_int x, as_int y with
      | Some a, Some b =>
          match f with
          | divide_two_numbers =>
              if (b =? 0)%Z then Raise zero_division else Ok (PInt (a `div` b))
          | divide_two_numbers_fixed =>
              if (b =? 0)%Z then Ok (PStr "Error: division by zero")
              else Ok (PInt (a `div` b))
          | modulo_two_numbers =>
              if (b =? 0)%Z then Raise zero_division else Ok (PInt (a `mod` b))
          | modulo_two_numbers_fixed =>
              if (b =? 0)%Z then Ok (PStr "Error: modulo by zero")
              else Ok (PInt (a `mod` b))
          end
      | _, _ => Raise not_modelled
      end
  | _ => Raise not_modelled
  end.

Definition call (f : Fn) (args : list PyVal) : M (World := unit) PyVal :=
  lift (apply f args).

(** What the reasoning service answers to each kind of prompt. *)
Record Script : Type := mkScript {
  search_answer : string;
  fix_answer : string
}.

Definition llm_invoke (script : Script) (p : Prompt) : M (World := unit) string :=
  ret (match p with
       | BugReportPrompt _ _ => "ZeroDivisionError when b is 0"
       | MemorySearchPrompt _ _ => search_answer script
       | MemoryGenerationPrompt _ =>
           "# function ## ZeroDivisionError ### b is 0"
       | MemoryModificationPrompt _ _ =>
           "# function ## ZeroDivisionError ### b is 0, seen again"
       | UpdateCodePrompt _ _ => fix_answer script
       end).

Definition json_loads (text : string) : Res PyVal :=
  if String.eqb text "[]" then Ok (PList [])
  else if String.eqb text "[0]" then Ok (PList [PInt 0])
  else if String.eqb text "[5]" then Ok (PList [PInt 5])
  else if String.eqb text "[-1]" then Ok (PList [PInt (-1)])
  else if String.eqb text "[null]" then Ok (PList [PNone])
  else Raise not_modelled.

Definition exec (code : string) : M (World := unit) (gmap string Fn) :=
  lift (if String.eqb code "" then Ok ∅
        else if String.eqb code divide_source
             then Ok {[ "divide_two_numbers" := divide_two_numbers ]}
        else if String.eqb code divide_fix
             then Ok {[ "divide_two_numbers" := divide_two_numbers_fixed ]}
        else if String.eqb code modulo_source
             then Ok {[ "modulo_two_numbers" := modulo_two_numbers ]}
        else if String.eqb code modulo_fix
             then Ok {[ "modulo_two_numbers" := modulo_two_numbers_fixed ]}
        else Raise not_modelled).

(** The service finds no relevant memory and proposes a working fix. *)
Definition heals : Script := mkScript "[]" divide_fix.
(** The service points at record 0 of a store that is still empty. *)
Definition wild_index : Script := mkScript "[0]" divide_fix.
(** The service keeps answering with the unchanged, failing definition. *)
Definition hopeless : Script := mkScript "[]" divide_source.
(** The service repairs a function that is not called [divide_two_numbers]. *)
Definition other_name : Script := mkScript "[]" modulo_fix.

Definition node_fn (script : Script) :=
  node_fn call (llm_invoke script) json_loads exec.
Definition stream (script : Script) :=
  stream call (llm_invoke script) json_loads exec.
Definition run (script : Script) :=
  run_self_healing_code_system call getsource (llm_invoke script)
    json_loads exec.

(** *** States met along the recorded runs *)

(** [divide_two_numbers(10, 0)]: the state the run starts from, *)
Definition started : State :=
  initial_state divide_two_numbers (source divide_two_numbers)
    [PInt 10; PInt 0].
(** after the first [run_code], *)
Definition failed : State :=
  set_error_description "integer division or modulo by zero"
    (set_error true started).
(** after [bug_report_node], *)
Definition reported : State :=
  set_bug_report "ZeroDivisionError when b is 0" failed.
(** after [memory_generation_node] and [update_code] under [heals], *)
Definition proposed : State :=
  set_new_function_string divide_fix
    (set_memories ["# function ## ZeroDivisionError ### b is 0"] reported).
(** and after [fix_code]. *)
Definition installed : State :=
  set_error false (set_function divide_two_numbers_fixed proposed).

(** A state whose operation works although its failure flag is set. *)
Definition flagged : State := set_error true installed.

(** [modulo_two_numbers(10, 0)] under [other_name], after [update_code]. *)
Definition proposed_modulo : State :=
  set_new_function_string modulo_fix
    (set_memories ["# function ## ZeroDivisionError ### b is 0"]
       (set_bug_report "ZeroDivisionError when b is 0"
          (set_error_description "integer division or modulo by zero"
             (set_error true
                (initial_state modulo_two_numbers (source modulo_two_numbers)
                   [PInt 10; PInt 0]))))).

(** A store of three records with two updates pending. *)
Definition three_records (queue : list PyVal) : State :=
  set_memory_indexes_to_update (PList queue)
    (set_memories ["# a ## b ### c"; "# d ## e ### f"; "# g ## h ### i"]
       reported).

Definition two_pending : State := three_records [PInt 1; PInt 2].
Definition last_pending : State := three_records [PInt (-1)].

(** A call that passes no arguments at all. *)
Definition no_arguments : State :=
  initial_state divide_two_numbers (source divide_two_numbers) [].

End Scenario.

(** * The other workflows of the repository

    The memory system, the memory generator and the schema generator are
    smaller graphs built from the same pieces. *)

Notation "x <- m ;; k" := (bind m (fun x => k))
  (at level 100, m at next level, right associativity).

(** What a router answers: the name of the next node, or [END]. *)
Inductive Decision (N : Type) : Type :=
| Continue (next : N)
| Terminate.
Arguments Continue {N} next.
Arguments Terminate {N}.

Inductive Progress (N : Type) : Type :=
| Done
| Failed (e : Exc)
| Pending (next : N).
Arguments Done {N}.
Arguments Failed {N} e.
Arguments Pending {N} next.

(** What the caller of a main function observes. *)
Inductive Outcome (A : Type) : Type :=
| Returns (a : A)
| Raises (e : Exc)
| StillRunning.
Arguments Returns {A} a.
Arguments Raises {A} e.
Arguments StillRunning {A}.

Section Executor.

Context {World N St : Type}.
Variable node : N -> St -> M (World := World) St.
Variable router : N -> St -> M (World := World) (Decision N).

(** Modelled from the spec: the graph executor ([graph.stream] of the
    LangGraph library, which is not part of this repository), section 4.1,
    for any table of nodes and routers. A router may talk to the outside
    world (the schema generator's asks the user); it is run on the state
    the node returned, and, as the recorded output of that notebook shows
    (the router's question comes before the node's output is printed), the
    output is handed to the caller once the router has answered. *)
Fixpoint run_graph (fuel : nat) (current : N) (state : St) (w : World)
  : list (N * St) * Progress N :=
  match fuel with
  | O => ([], Pending current)
  | S fuel' =>
      match node current state w with
      | (Raise e, _) => ([], Failed e)
      | (Ok state', w') =>
          match router current state' w' with
          | (Raise e, _) => ([], Failed e)
          | (Ok Terminate, _) => ([(current, state')], Done)
          | (Ok (Continue next), w'') =>
              let (outputs, status) := run_graph fuel' next state' w'' in
              ((current, state') :: outputs, status)
          end
      end
  end.

(** [for output in graph.stream(state): last_state = output] and
    [return last_state]. *)
Definition last_output (run : list (N * St) * Progress N) : Outcome (N * St) :=
  match run with
  | (outputs, Done) =>
      match last outputs with
      | Some last_state => Returns last_state
      | None => Raises (mkExc (OtherException "UnboundLocalError")
                          "local variable 'last_state' referenced before assignment")
      end
  | (_, Failed e) => Raises e
  | (_, Pending _) => StillRunning
  end.

(** [for output in graph.stream(state): print(output)], returning [None]. *)
Definition drain (run : list (N * St) * Progress N) : Outcome unit :=
  match run with
  | (_, Done) => Returns tt
  | (_, Failed e) => Raises e
  | (_, Pending _) => StillRunning
  end.

End Executor.

(** ** The memory system (memory_management notebook, first part) *)
Module MemorySystem.

Inductive Prompt : Type :=
| MemorySearchPrompt (interaction : string) (memories : list string)
| MemoryModificationPrompt (interaction memory_to_update : string).

Inductive Node : Type :=
| N_memory_search_node
| N_memory_modification_node.

(** [class State(BaseModel)]; the records the caller passes in are texts. *)
Record State : Type := mkState {
  interaction : string;
  memory_schema : list string;
  memory_labels : list string;
  memories : list string;
  memory_indexes_to_update : PyVal
}.

Definition set_memories (m : list string) (s : State) : State :=
  mkState (interaction s) (memory_schema s) (memory_labels s) m
    (memory_indexes_to_update s).
Definition set_memory_indexes_to_update (q : PyVal) (s : State) : State :=
  mkState (interaction s) (memory_schema s) (memory_labels s) (memories s) q.

Section Nodes.

Context {World : Type}.
Variable llm_invoke : Prompt -> M (World := World) string.
Variable json_loads : string -> Res PyVal.

Definition memory_search_node (state : State) : M (World := World) State :=
  response <- llm_invoke
    (MemorySearchPrompt (interaction state) (memories state)) ;;
  memory_indexes_to_update <- lift (json_loads response) ;;
  ret (set_memory_indexes_to_update memory_indexes_to_update state).

Definition memory_modification_node (state : State) : M (World := World) State :=
  popped <- lift (pop0 (memory_indexes_to_update state)) ;;
  let memory_to_update_index := fst popped in
  let state := set_memory_indexes_to_update (snd popped) state in
  memory_to_update <- lift
    (list_getitem (memories state) memory_to_update_index) ;;
  response <- llm_invoke
    (MemoryModificationPrompt (interaction state) memory_to_update) ;;
  memories' <- lift
    (list_setitem (memories state) memory_to_update_index response) ;;
  ret (set_memories memories' state).

Definition modification_router (state : State) : Decision Node :=
  if truthy (memory_indexes_to_update state)
  then Continue N_memory_modification_node
  else Terminate.

Definition node_fn (n : Node) : State -> M (World := World) State :=
  match n with
  | N_memory_search_node => memory_search_node
  | N_memory_modification_node => memory_modification_node
  end.

Definition edge (n : Node) (state : State) : M (World := World) (Decision Node) :=
  match n with
  | N_memory_search_node => ret (modification_router state)
  | N_memory_modification_node => ret (modification_router state)
  end.

Definition entry_point : Node := N_memory_search_node.

Definition stream (fuel : nat) (state : State) (w : World)
  : list (Node * State) * Progress Node :=
  run_graph node_fn edge fuel entry_point state w.

Definition run_memory_system (fuel : nat) (interaction : string)
    (memory_schema : list string) (memories : list string) (w : World)
  : Outcome (Node * State) :=
  let state := mkState interaction memory_schema [] memories (PList []) in
  last_output (stream fuel state w).

End Nodes.

End MemorySystem.

(** ** The memory generator (memory_generation notebook) *)
Module MemoryGenerator.

Inductive Prompt : Type :=
| MemoryTypePrompt (interaction : string) (memory_schema : list string)
| MemoryPrompt (interaction memory_label : string).

Inductive Node : Type :=
| N_memory_type_determination_node
| N_memory_generation_node.

Record State : Type := mkState {
  interaction : string;
  memory_schema : list string;
  memory_labels : list string;
  memories : list string
}.

Definition set_memory_labels (l : list string) (s : State) : State :=
  mkState (interaction s) (memory_schema s) l (memories s).
Definition set_memories (m : list string) (s : State) : State :=
  mkState (interaction s) (memory_schema s) (memory_labels s) m.

(** [s.split(sep)] for a separator of one character: the pieces between
    the separators, empty ones included, so never an empty list. Texts are
    byte strings here; the separator used is ASCII, which never occurs
    inside a multi-byte character. *)
Fixpoint split (sep : Ascii.ascii) (s : string) : list string :=
  match s with
  | EmptyString => [EmptyString]
  | String c rest =>
      if Ascii.eqb c sep then EmptyString :: split sep rest
      else match split sep rest with
           | piece :: pieces => String c piece :: pieces
           | [] => [String c EmptyString]
           end
  end.

(** [sep.join(pieces)], to say what [split] keeps. *)
Fixpoint join (sep : Ascii.ascii) (pieces : list string) : string :=
  match pieces with
  | [] => EmptyString
  | [piece] => piece
  | piece :: rest => piece ++ String sep (join sep rest)
  end.

(** How many times [sep] occurs in [s]. *)
Fixpoint occurrences (sep : Ascii.ascii) (s : string) : nat :=
  match s with
  | EmptyString => 0
  | String c rest => (if Ascii.eqb c sep then 1 else 0) + occurrences sep rest
  end.

Section Nodes.

Context {World : Type}.
Variable llm_invoke : Prompt -> M (World := World) string.

Definition memory_type_determination_node (state : State)
  : M (World := World) State :=
  response <- llm_invoke
    (MemoryTypePrompt (interaction state) (memory_schema state)) ;;
  let memory_labels := split "|"%char response in
  ret (set_memory_labels memory_labels state).

Definition memory_generation_node (state : State) : M (World := World) State :=
  memory_label <- lift
    (match memory_labels state with
     | label :: _ => Ok label
     | [] => Raise (mkExc IndexError "list index out of range")
     end) ;;
  memory <- llm_invoke (MemoryPrompt (interaction state) memory_label) ;;
  remaining <- lift
    (match memory_labels state with
     | _ :: rest => Ok rest
     | [] => Raise (mkExc IndexError "pop from empty list")
     end) ;;
  ret (set_memories (memories state ++ [memory])
         (set_memory_labels remaining state)).

Definition generate_memory (state : State) : Decision Node :=
  match memory_labels state with
  | _ :: _ => Continue N_memory_generation_node
  | [] => Terminate
  end.

Definition node_fn (n : Node) : State -> M (World := World) State :=
  match n with
  | N_memory_type_determination_node => memory_type_determination_node
  | N_memory_generation_node => memory_generation_node
  end.

Definition edge (n : Node) (state : State) : M (World := World) (Decision Node) :=
  match n with
  | N_memory_type_determination_node => ret (generate_memory state)
  | N_memory_generation_node => ret (generate_memory state)
  end.

Definition entry_point : Node := N_memory_type_determination_node.

Definition stream (fuel : nat) (state : State) (w : World)
  : list (Node * State) * Progress Node :=
  run_graph node_fn edge fuel entry_point state w.

Definition run_memory_generator (fuel : nat) (interaction : string)
    (memory_schema : list string) (w : World) : Outcome unit :=
  let state := mkState interaction memory_schema [] [] in
  drain (stream fuel state w).

End Nodes.

End MemoryGenerator.

(** ** The schema generator (schema generation notebook) *)
Module SchemaGenerator.

Inductive Prompt : Type :=
| SchemaPrompt (idea : string) (memory_schema : list string)
    (update_instructions : option string).

Inductive Node : Type :=
| N_schema_generation_node
| N_update_instrctions_node.

Record State : Type := mkState {
  idea : string;
  memory_schema : list string;
  update_instructions : option string
}.

(** The answers that end the iteration. *)
Definition stop_words : list string := ["no"; "n"; "quit"; "q"; "exit"; "e"].

Section Nodes.

Context {World : Type}.
Variable llm_invoke : Prompt -> M (World := World) string.
(** [input(question)]: what the user types *)
Variable input : string -> M (World := World) string.

Definition schema_generation_node (state : State) : M (World := World) State :=
  memories <- llm_invoke
    (SchemaPrompt (idea state) (memory_schema state)
       (update_instructions state)) ;;
  ret (mkState (idea state) (memory_schema state ++ [memories])
         (update_instructions state)).

Definition update_instrctions_node (state : State) : M (World := World) State :=
  new_instructions <- input "Please provide updated instructions" ;;
  ret (mkState (idea state) (memory_schema state) (Some new_instructions)).

Definition update_schema (state : State) : M (World := World) (Decision Node) :=
  instructions <- input "Do you wish to iterate over this schema? (yes or no)" ;;
  ret (if existsb (String.eqb instructions) stop_words
       then Terminate
       else Continue N_update_instrctions_node).

Definition node_fn (n : Node) : State -> M (World := World) State :=
  match n with
  | N_schema_generation_node => schema_generation_node
  | N_update_instrctions_node => update_instrctions_node
  end.

Definition edge (n : Node) (state : State) : M (World := World) (Decision Node) :=
  match n with
  | N_schema_generation_node => update_schema state
  | N_update_instrctions_node => ret (Continue N_schema_generation_node)
  end.

Definition entry_point : Node := N_schema_generation_node.

Definition stream (fuel : nat) (state : State) (w : World)
  : list (Node * State) * Progress Node :=
  run_graph node_fn edge fuel entry_point state w.

Definition run_schema_generator (fuel : nat) (idea : string) (w : World)
  : Outcome unit :=
  let state := mkState idea [] None in
  drain (stream fuel state w).

End Nodes.

End SchemaGenerator.

(** ** Vocabulary for the properties of whole runs *)

(** How many of the outputs are those of the memory-generation node. *)
Definition generations {Callable : Type}
    (outputs : list (Node * State (Callable := Callable))) : nat :=
  length (filter (fun o => o.1 = N_memory_generation_node) outputs).

(** ** More recorded sessions *)
Module Sessions.

(** [json.loads] on a few more texts. *)
Definition json_loads (text : string) : Res PyVal :=
  if String.eqb text "[2, 0]" then Ok (PList [PInt 2; PInt 0])
  else if String.eqb text "[1, 7]" then Ok (PList [PInt 1; PInt 7])
  else if String.eqb text "5" then Ok (PInt 5)
  else Scenario.json_loads text.

(** The self-healing workflow with a reasoning service that answers the
    memory search with a bare number. *)
Definition bare_number : Scenario.Script :=
  Scenario.mkScript "5" Scenario.divide_fix.

(** The memory system: the search is answered with [search_answer], an
    update with a text made from the interaction. *)
Definition memory_llm (search_answer : string) (p : MemorySystem.Prompt)
  : M (World := unit) string :=
  ret (match p with
       | MemorySystem.MemorySearchPrompt _ _ => search_answer
       | MemorySystem.MemoryModificationPrompt interaction _ =>
           "# semantic ## " ++ interaction
       end).

Definition bare_number_stream :=
  stream Scenario.call (Scenario.llm_invoke bare_number) json_loads
    Scenario.exec.

(** The operation still fails, and the store holds the record of an
    earlier cycle. *)
Definition second_cycle : State :=
  set_memories ["# function ## ZeroDivisionError ### b is 0"]
    Scenario.started.

Definition three_colours : list string :=
  ["# semantic ## blue"; "# semantic ## tea"; "# semantic ## cats"].

Definition colour_state : MemorySystem.State :=
  MemorySystem.mkState "Actually, red" [] [] three_colours (PList []).

(** The memory generator: two labels are chosen, each memory repeats its
    label. *)
Definition generator_llm (p : MemoryGenerator.Prompt)
  : M (World := unit) string :=
  ret (match p with
       | MemoryGenerator.MemoryTypePrompt _ _ =>
           "## sessions ### dates|## goals ### plans"
       | MemoryGenerator.MemoryPrompt _ label => "# memory " ++ label
       end).

Definition created : MemoryGenerator.State :=
  MemoryGenerator.mkState "I created" [] [] [].

(** The schema generator: the world is what the user is going to type,
    line by line; reading past the last line is the interpreter's
    [EOFError]. *)
Definition typed (question : string) : M (World := list string) string :=
  fun lines =>
    match lines with
    | line :: rest => (Ok line, rest)
    | [] => (Raise (mkExc (OtherException "EOFError")
                      "EOF when reading a line"), [])
    end.

Definition schema_llm (p : SchemaGenerator.Prompt)
  : M (World := list string) string :=
  ret (match p with
       | SchemaGenerator.SchemaPrompt _ _ None => "# semantic ## subjects"
       | SchemaGenerator.SchemaPrompt _ _ (Some instructions) =>
           "# episodic ## " ++ instructions
       end).

(** The user asks for one more round, types instructions, then quits. *)
Definition one_more_round : list string := ["yes"; "add dates"; "q"].

Definition tutoring : SchemaGenerator.State :=
  SchemaGenerator.mkState "tutoring" [] None.

Definition one_more_round_outputs
  : list (SchemaGenerator.Node * SchemaGenerator.State) :=
  [(SchemaGenerator.N_schema_generation_node,
    SchemaGenerator.mkState "tutoring" ["# semantic ## subjects"] None);
   (SchemaGenerator.N_update_instrctions_node,
    SchemaGenerator.mkState "tutoring" ["# semantic ## subjects"]
      (Some "add dates"));
   (SchemaGenerator.N_schema_generation_node,
    SchemaGenerator.mkState "tutoring"
      ["# semantic ## subjects"; "# episodic ## add dates"]
      (Some "add dates"))].

End Sessions.

(** * Properties *)

(** ** Python indexing *)

Lemma py_index_nonneg (what : string) (len : nat) (z : Z) :
(0 <= z < Z.of_nat len)%Z -> py_index what len (PInt z) = Ok (Z.to_nat z).
Proof.
intros [H0 H1]. unfold py_index.
destruct (Z.leb_spec 0 z); [|lia]. destruct (Z.ltb_spec z (Z.of_nat len)); [|lia].
reflexivity.
Qed.

Lemma py_index_negative (what : string) (len : nat) (z : Z) :
(- Z.of_nat len <= z <= -1)%Z ->
py_index what len (PInt z) = Ok (Z.to_nat (Z.of_nat len + z)).
Proof.
intros [H0 H1]. unfold py_index.
destruct (Z.leb_spec 0 z); [lia|]. cbn [andb].
destruct (Z.leb_spec (- Z.of_nat len) z); [|lia].
destruct (Z.ltb_spec z 0); [|lia]. reflexivity.
Qed.

(** The position does not depend on the wording of the error message, and it
  lies inside the list. *)
Lemma py_index_Ok (what : string) (len : nat) (v : PyVal) (i : nat) :
py_index what len v = Ok i ->
i < len /\ forall what', py_index what' len v = Ok i.
Proof.
assert (Hint : forall z : Z,
  (if (0 <=? z)%Z && (z <? Z.of_nat len)%Z then Ok (Z.to_nat z)
   else if (- Z.of_nat len <=? z)%Z && (z <? 0)%Z
        then Ok (Z.to_nat (Z.of_nat len + z))
        else Raise (mkExc IndexError ("list " ++ what ++ " out of range")))
  = Ok i ->
  i < len /\ forall what',
  (if (0 <=? z)%Z && (z <? Z.of_nat len)%Z then Ok (Z.to_nat z)
   else if (- Z.of_nat len <=? z)%Z && (z <? 0)%Z
        then Ok (Z.to_nat (Z.of_nat len + z))
        else Raise (mkExc IndexError ("list " ++ what' ++ " out of range")))
  = Ok i).
{ intros z.
  destruct (Z.leb_spec 0 z), (Z.ltb_spec z (Z.of_nat len)),
    (Z.leb_spec (- Z.of_nat len) z), (Z.ltb_spec z 0);
    cbn [andb]; intros [= <-] || intros [=]; split; (lia || reflexivity). }
destruct v; cbn [py_index]; try discriminate; apply Hint.
Qed.

(** Exactly the invalid values make indexing raise, with [IndexError] for
  an integer and [TypeError] for anything else. *)
Lemma py_index_invalid (what : string) (len : nat) (v : PyVal) :
invalid_index len v = true ->
exists e, py_index what len v = Raise e /\
          (exc_class e = IndexError \/ exc_class e = TypeError).
Proof.
assert (Hint : forall z : Z,
  (z <? - Z.of_nat len)%Z || (Z.of_nat len <=? z)%Z = true ->
  exists e,
    (if (0 <=? z)%Z && (z <? Z.of_nat len)%Z then Ok (Z.to_nat z)
     else if (- Z.of_nat len <=? z)%Z && (z <? 0)%Z
          then Ok (Z.to_nat (Z.of_nat len + z))
          else Raise (mkExc IndexError ("list " ++ what ++ " out of range")))
    = Raise e /\ (exc_class e = IndexError \/ exc_class e = TypeError)).
{ intros z Hz. apply orb_true_iff in Hz.
  destruct (Z.leb_spec 0 z), (Z.ltb_spec z (Z.of_nat len)),
    (Z.leb_spec (- Z.of_nat len) z), (Z.ltb_spec z 0); cbn [andb];
    try (destruct Hz as [Hz|Hz];
         [apply Z.ltb_lt in Hz | apply Z.leb_le in Hz]; lia);
    (eexists; split; [reflexivity | left; reflexivity]). }
destruct v; cbn [invalid_index py_index]; intros Hv;
  try (eexists; split; [reflexivity | right; reflexivity]).
- apply Hint. rewrite Hv. apply orb_true_r.
- apply Hint, Hv.
Qed.

Lemma py_index_valid (what : string) (len : nat) (v : PyVal) :
invalid_index len v = false -> exists i, py_index what len v = Ok i.
Proof.
assert (Hint : forall z : Z,
  (z <? - Z.of_nat len)%Z || (Z.of_nat len <=? z)%Z = false ->
  exists i,
    (if (0 <=? z)%Z && (z <? Z.of_nat len)%Z then Ok (Z.to_nat z)
     else if (- Z.of_nat len <=? z)%Z && (z <? 0)%Z
          then Ok (Z.to_nat (Z.of_nat len + z))
          else Raise (mkExc IndexError ("list " ++ what ++ " out of range")))
    = Ok i).
{ intros z Hz. apply orb_false_iff in Hz. destruct Hz as [Hlo Hhi].
  apply Z.ltb_ge in Hlo. apply Z.leb_gt in Hhi.
  destruct (Z.leb_spec 0 z), (Z.ltb_spec z (Z.of_nat len)),
    (Z.leb_spec (- Z.of_nat len) z), (Z.ltb_spec z 0); cbn [andb];
    try lia; eexists; reflexivity. }
destruct v; cbn [invalid_index py_index]; intros Hv; try discriminate.
- apply Hint. rewrite Hv, orb_false_r. destruct b; apply Z.ltb_ge; lia.
- apply Hint, Hv.
Qed.

Section Properties.

Context {Callable World : Type}.
Variable call : Callable -> list PyVal -> World -> Res PyVal * World.
Variable getsource : Callable -> Res string.
Variable llm_invoke : Prompt -> World -> Res string * World.
Variable json_loads : string -> Res PyVal.
Variable exec : string -> World -> Res (gmap string Callable) * World.

Local Abbreviation State := (State (Callable := Callable)).
Local Abbreviation node_fn' := (node_fn call llm_invoke json_loads exec).
Local Abbreviation stream' := (stream call llm_invoke json_loads exec).

(** ** The run-target node *)

Lemma run_code_returned (s : State) (w w' : World) (v : PyVal) :
  call (function s) (arguments s) w = (Ok v, w') ->
  run_code call s w = (Ok s, w').
Proof.
  intros Hcall. unfold run_code, try_except, bind, ret. rewrite Hcall.
  reflexivity.
Qed.

Lemma run_code_raised (s : State) (w w' : World) (e : Exc) :
  call (function s) (arguments s) w = (Raise e, w') ->
  run_code call s w =
    if is_Exception e
    then (Ok (set_error_description (exc_str e) (set_error true s)), w')
    else (Raise e, w').
Proof.
  intros Hcall. unfold run_code, try_except, bind, ret. rewrite Hcall.
  reflexivity.
Qed.

(** C6, as the code has it: when the invocation succeeds, the run-target
    node returns the state it was given, untouched. The operation is the
    same as before; the failure flag and the failure description keep the
    values they had, so they are false and empty only if they were so
    before the invocation. *)
Theorem C6_run_code_success_keeps_state (s : State) (w w' : World) (v : PyVal) :
  call (function s) (arguments s) w = (Ok v, w') ->
  exists s', run_code call s w = (Ok s', w') /\
    function s' = function s /\
    error s' = error s /\
    error_description s' = error_description s /\
    s' = s.
Proof.
  intros Hcall. exists s. rewrite (run_code_returned _ _ _ _ Hcall). done.
Qed.

(** C9: when the invocation raises an error (an [Exception]), the
    run-target node returns a state whose failure flag is true and whose
    failure description is the text of that error; the argument list, the
    operation and the memory store are the ones it was given. *)
Theorem C9_run_code_failure_frame (s : State) (w w' : World) (e : Exc) :
  call (function s) (arguments s) w = (Raise e, w') ->
  is_Exception e = true ->
  exists s', run_code call s w = (Ok s', w') /\
    error s' = true /\
    error_description s' = exc_str e /\
    arguments s' = arguments s /\
    function s' = function s /\
    memories s' = memories s.
Proof.
  intros Hcall He. rewrite (run_code_raised _ _ _ _ Hcall), He.
  eexists. split; [reflexivity|]. done.
Qed.

(** ** The memory-update node *)

(** One pass of the node on a queue whose front value addresses position
    [k]: the front value leaves the queue, the reasoning service is asked
    about record [k], and its answer is stored at position [k]. *)
Lemma memory_modification_node_at (s : State) (w w' : World)
    (v : PyVal) (rest : list PyVal) (k : nat) (m response : string) :
  memory_indexes_to_update s = PList (v :: rest) ->
  py_index "index" (length (memories s)) v = Ok k ->
  memories s !! k = Some m ->
  llm_invoke (MemoryModificationPrompt (bug_report s) m) w = (Ok response, w') ->
  memory_modification_node llm_invoke s w =
    (Ok (set_memories (<[k:=response]> (memories s))
           (set_memory_indexes_to_update (PList rest) s)), w').
Proof.
  intros Hq Hk Hm Hllm.
  destruct (py_index_Ok _ _ _ _ Hk) as [_ Hwhat].
  unfold memory_modification_node, bind, lift, ret. rewrite Hq.
  cbn [pop0 fst snd set_memory_indexes_to_update memories bug_report].
  unfold list_getitem. rewrite Hk, Hm, Hllm.
  unfold list_setitem. rewrite (Hwhat "assignment index"). reflexivity.
Qed.

(** C7: with an in-range index [i] at the front of the queue, one
    invocation of the memory-update node (its question to the reasoning
    service answered by [response]) removes that one index from the queue
    and puts [response] at position [i]; every other position and the
    length of the store are as before. *)
Theorem C7_update_replaces_one_record (s : State) (w w' : World)
    (i : Z) (rest : list PyVal) (m response : string) :
  memory_indexes_to_update s = PList (PInt i :: rest) ->
  (0 <= i < Z.of_nat (length (memories s)))%Z ->
  memories s !! Z.to_nat i = Some m ->
  llm_invoke (MemoryModificationPrompt (bug_report s) m) w = (Ok response, w') ->
  exists s', memory_modification_node llm_invoke s w = (Ok s', w') /\
    memory_indexes_to_update s' = PList rest /\
    memories s' !! Z.to_nat i = Some response /\
    (forall j, j <> Z.to_nat i -> memories s' !! j = memories s !! j) /\
    length (memories s') = length (memories s).
Proof.
  intros Hq Hi Hm Hllm.
  pose proof (py_index_nonneg "index" _ _ Hi) as Hk.
  rewrite (memory_modification_node_at _ _ _ _ _ _ _ _ Hq Hk Hm Hllm).
  eexists. split; [reflexivity|]. cbn [memories memory_indexes_to_update
    set_memories set_memory_indexes_to_update].
  split; [reflexivity|]. split; [|split].
  - apply list_lookup_insert_eq. lia.
  - intros j Hj. apply list_lookup_insert_ne. congruence.
  - apply length_insert.
Qed.

(** C10: with a negative index [i], [-len <= i <= -1], at the front of
    the queue, the memory-update node returns normally and replaces the
    record at position [len + i], counting from the end of the store;
    nothing else in the store changes. *)
Theorem C10_update_accepts_negative_index (s : State) (w w' : World)
    (i : Z) (rest : list PyVal) (m response : string) :
  memory_indexes_to_update s = PList (PInt i :: rest) ->
  (- Z.of_nat (length (memories s)) <= i <= -1)%Z ->
  memories s !! Z.to_nat (Z.of_nat (length (memories s)) + i) = Some m ->
  llm_invoke (MemoryModificationPrompt (bug_report s) m) w = (Ok response, w') ->
  exists s', memory_modification_node llm_invoke s w = (Ok s', w') /\
    memory_indexes_to_update s' = PList rest /\
    memories s' =
      <[Z.to_nat (Z.of_nat (length (memories s)) + i) := response]> (memories s) /\
    memories s' !! Z.to_nat (Z.of_nat (length (memories s)) + i) = Some response /\
    (forall j, j <> Z.to_nat (Z.of_nat (length (memories s)) + i) ->
               memories s' !! j = memories s !! j) /\
    length (memories s') = length (memories s).
Proof.
  intros Hq Hi Hm Hllm.
  pose proof (py_index_negative "index" _ _ Hi) as Hk.
  rewrite (memory_modification_node_at _ _ _ _ _ _ _ _ Hq Hk Hm Hllm).
  eexists. split; [reflexivity|]. cbn [memories memory_indexes_to_update
    set_memories set_memory_indexes_to_update].
  split; [reflexivity|]. split; [reflexivity|]. split; [|split].
  - apply list_lookup_insert_eq. lia.
  - intros j Hj. apply list_lookup_insert_ne. congruence.
  - apply length_insert.
Qed.

(** ** The fix-application node *)

Lemma fix_code_cases (s : State) (w : World) :
  fix_code exec s w =
    match exec (new_function_string s) w with
    | (Ok namespace, w') =>
        match namespace !! "divide_two_numbers" with
        | Some f => (Ok (set_error false (set_function f s)), w')
        | None => (Ok s, w')
        end
    | (Raise e, w') => if is_Exception e then (Ok s, w') else (Raise e, w')
    end.
Proof.
  unfold fix_code, try_except, bind, lift, ret, dict_getitem.
  destruct (exec (new_function_string s) w) as [[namespace|e] w']; [|done].
  destruct (namespace !! "divide_two_numbers"); done.
Qed.

(** The operation changes only when loading and extraction both succeed. *)
Lemma fix_code_function (s s' : State) (w w' : World) :
  fix_code exec s w = (Ok s', w') ->
  function s' = function s \/
  exists namespace, exec (new_function_string s) w = (Ok namespace, w') /\
                    namespace !! "divide_two_numbers" = Some (function s').
Proof.
  rewrite fix_code_cases.
  destruct (exec (new_function_string s) w) as [[namespace|e] w1].
  - destruct (namespace !! "divide_two_numbers") as [f|] eqn:Hf;
      intros [= <- <-]; [right; by exists namespace | by left].
  - destruct (is_Exception e); intros [= <- <-]. by left.
Qed.

(** ** What each node leaves alone *)

Ltac node_cases H :=
  unfold run_code, update_code, fix_code, bug_report_node, memory_search_node,
    memory_generation_node, memory_modification_node, try_except, bind, lift,
    ret in H;
  repeat case_match; simplify_eq.

Lemma node_fn_frame (n : Node) (s s' : State) (w w' : World) :
  node_fn' n s w = (Ok s', w') ->
  arguments s' = arguments s /\
  function_string s' = function_string s /\
  (n <> N_fix_code -> function s' = function s) /\
  (n <> N_run_code -> n <> N_fix_code -> error s' = error s) /\
  (n <> N_memory_generation_node ->
     length (memories s') = length (memories s)) /\
  (n <> N_update_code -> new_function_string s' = new_function_string s).
Proof.
  intros H. destruct n; cbn [node_fn] in H; node_cases H;
    cbn; repeat split; try done.
  unfold list_setitem in *.
  destruct (py_index _ _ _); simplify_eq. intros _. apply length_insert.
Qed.

(** C3, as the code has it: along any node execution the failure flag goes
    from true to false only in the fix-application node, and only when the
    pending fix text loaded and the name was found in it; it goes from
    false to true only in the run-target node, when the invocation raised;
    an invocation that raises always leaves it true, and one that succeeds
    leaves it as it was. *)
Theorem C3_failure_flag_transitions (n : Node) (s s' : State) (w w' : World) :
  node_fn' n s w = (Ok s', w') ->
  (error s = true -> error s' = false ->
     n = N_fix_code /\
     exists namespace,
       exec (new_function_string s) w = (Ok namespace, w') /\
       namespace !! "divide_two_numbers" = Some (function s')) /\
  (error s = false -> error s' = true ->
     n = N_run_code /\
     exists e, call (function s) (arguments s) w = (Raise e, w') /\
               is_Exception e = true) /\
  (n = N_run_code ->
     (forall e, call (function s) (arguments s) w = (Raise e, w') ->
                error s' = true) /\
     (forall v, call (function s) (arguments s) w = (Ok v, w') ->
                error s' = error s)).
Proof.
  intros H. split; [|split].
  - intros Ht Hf.
    destruct (decide (n = N_fix_code)) as [->|Hn].
    + split; [done|]. cbn [node_fn] in H.
      rewrite fix_code_cases in H.
      destruct (exec (new_function_string s) w) as [[namespace|e] w1].
      * destruct (namespace !! "divide_two_numbers") as [f|] eqn:Hlook;
          simplify_eq; [|congruence]. by exists namespace.
      * destruct (is_Exception e); simplify_eq. congruence.
    + destruct (decide (n = N_run_code)) as [->|Hn'].
      * cbn [node_fn] in H. node_cases H; cbn in *; congruence.
      * destruct (node_fn_frame _ _ _ _ _ H) as (_ & _ & _ & He & _ & _).
        rewrite (He Hn' Hn) in Hf. congruence.
  - intros Hf Ht.
    destruct (decide (n = N_run_code)) as [->|Hn].
    + split; [done|]. cbn [node_fn] in H.
      destruct (call (function s) (arguments s) w) as [[v|e] w1] eqn:Hcall.
      * rewrite (run_code_returned _ _ _ _ Hcall) in H. simplify_eq. congruence.
      * rewrite (run_code_raised _ _ _ _ Hcall) in H.
        destruct (is_Exception e) eqn:He; simplify_eq. by exists e.
    + destruct (decide (n = N_fix_code)) as [->|Hn'].
      * cbn [node_fn] in H. rewrite fix_code_cases in H.
        destruct (exec (new_function_string s) w) as [[namespace|e] w1].
        -- destruct (namespace !! "divide_two_numbers"); simplify_eq;
             cbn in *; congruence.
        -- destruct (is_Exception e); simplify_eq. congruence.
      * destruct (node_fn_frame _ _ _ _ _ H) as (_ & _ & _ & He & _ & _).
        rewrite (He Hn Hn') in Ht. congruence.
  - intros ->. cbn [node_fn] in H. split.
    + intros e Hcall. rewrite (run_code_raised _ _ _ _ Hcall) in H.
      destruct (is_Exception e); simplify_eq. done.
    + intros v Hcall. rewrite (run_code_returned _ _ _ _ Hcall) in H.
      by simplify_eq.
Qed.

(** ** Runs *)

Lemma stream_S (fuel : nat) (n : Node) (s : State) (w : World) :
  stream' (S fuel) n s w =
    match node_fn' n s w with
    | (Raise e, _) => ([], Crashed e)
    | (Ok s', w') =>
        match edge n s' with
        | END => ([(n, s')], Finished)
        | Goto next => ((n, s') :: (stream' fuel next s' w').1,
                        (stream' fuel next s' w').2)
        end
    end.
Proof.
  cbn [stream].
  destruct (node_fn' n s w) as [[s'|e] w']; [|done].
  destruct (edge n s'); [|done].
  by destruct (stream _ _ _ _ _ _ _ _).
Qed.

(** The first output of a run is the node the run was started at. *)
Lemma stream_head (fuel : nat) (n : Node) (s : State) (w : World)
    (first : Node * State) :
  (stream' fuel n s w).1 !! 0 = Some first -> first.1 = n.
Proof.
  destruct fuel as [|fuel]; [done|]. rewrite stream_S.
  destruct (node_fn' n s w) as [[s'|e] w']; [|done].
  destruct (edge n s'); cbn; by intros [= <-].
Qed.

(** An exception that a node lets through ends the run on the spot. *)
Lemma stream_node_raises (fuel : nat) (n : Node) (s : State) (w w' : World)
    (e : Exc) :
  node_fn' n s w = (Raise e, w') -> stream' (S fuel) n s w = ([], Crashed e).
Proof. intros H. by rewrite stream_S, H. Qed.

(** The only way to [END] is through [error_router] after [run_code]: a
    run that finished did so at the run-target node, with the failure flag
    false. *)
Lemma stream_finished_healthy (fuel : nat) (n : Node) (s : State) (w : World)
    (outputs : list (Node * State)) :
  stream' fuel n s w = (outputs, Finished) ->
  exists s', last outputs = Some (N_run_code, s') /\ error s' = false.
Proof.
  revert n s w outputs. induction fuel as [|fuel IH]; intros n s w outputs;
    [done|].
  rewrite stream_S. destruct (node_fn' n s w) as [[s'|e] w']; [|done].
  destruct (edge n s') as [next|] eqn:Hedge.
  - intros [= <- Hst].
    destruct (stream' fuel next s' w') as [rest status] eqn:Hrest.
    cbn in Hst. subst status. destruct (IH _ _ _ _ Hrest) as (s'' & Hl & He).
    exists s''. split; [|done]. cbn [fst].
    destruct rest as [|o rest]; [done|]. by rewrite last_cons, Hl.
  - intros [= <-]. destruct n; cbn in Hedge;
      unfold error_router, modification_router, update_memory in Hedge;
      try done; try (by case_match).
    destruct (error s') eqn:He; [done|]. by exists s'.
Qed.

(** C5: when the target operation succeeds on its first invocation, the run
    consists of exactly one output, that of the run-target node; it ends
    there (at least one step observed), the caller gets that state back,
    the failure flag is false and the bug report and the pending fix are
    still empty. *)
Theorem C5_success_on_first_invocation (f : Callable) (args : list PyVal)
    (source : string) (w w' : World) (v : PyVal) (fuel : nat) :
  getsource f = Ok source ->
  call f args w = (Ok v, w') ->
  exists s,
    stream' (S fuel) entry_point (initial_state f source args) w
      = ([(N_run_code, s)], Finished) /\
    run_self_healing_code_system call getsource llm_invoke json_loads exec
      (S fuel) f args w = Returned (N_run_code, s) /\
    s = initial_state f source args /\
    error s = false /\ bug_report s = "" /\ new_function_string s = "".
Proof.
  intros Hsrc Hcall. exists (initial_state f source args).
  assert (Hrun : stream' (S fuel) entry_point (initial_state f source args) w
                 = ([(N_run_code, initial_state f source args)], Finished)).
  { rewrite stream_S. cbn [node_fn entry_point].
    by rewrite (run_code_returned (initial_state f source args) w w' v Hcall). }
  split; [exact Hrun|]. split; [|done].
  unfold run_self_healing_code_system. by rewrite Hsrc, Hrun.
Qed.

(** Every edge of the graph respects the routing rule. *)
Lemma edge_routed (n next : Node) (s s'' : State) :
  edge n s = Goto next -> routed (n, s) (next, s'').
Proof.
  unfold routed; cbn [fst snd]. intros Hedge.
  destruct n; cbn in Hedge;
    unfold error_router, modification_router, update_memory in Hedge;
    repeat case_match; simplify_eq; (split; [|split]);
    try done; try (intros [?|?]; done); try (intros _; by eauto).
  intros _. split; [done|]. split; [done|].
  intros l Hl. rewrite Hl in *. by destruct l.
Qed.

Lemma stream_routed (fuel : nat) (n : Node) (s : State) (w : World)
    (i : nat) (prev cur : Node * State) :
  (stream' fuel n s w).1 !! i = Some prev ->
  (stream' fuel n s w).1 !! S i = Some cur ->
  routed prev cur.
Proof.
  revert n s w i. induction fuel as [|fuel IH]; intros n s w i; [done|].
  rewrite stream_S. destruct (node_fn' n s w) as [[s'|e] w']; [|done].
  destruct (edge n s') as [next|] eqn:Hedge; [|by destruct i].
  cbn [fst]. destruct i as [|i].
  - intros [= <-] Hcur. cbn in Hcur.
    pose proof (stream_head _ _ _ _ _ Hcur) as Hn.
    destruct cur as [n2 s2]; cbn in Hn; subst n2. by apply edge_routed.
  - cbn. apply IH.
Qed.

(** C8: in every run, the first output is that of the run-target node, and
    any two consecutive outputs are [routed]: the memory-generation node
    comes only straight after a memory search that left the queue empty; a
    non-empty queue after search (or after an update) always leads to the
    memory-update node; and an update is followed by another update or by
    the fix proposal, so a pass that updated records does not append one. *)
Theorem C8_generation_only_after_empty_search (fuel : nat) (s : State)
    (w : World) :
  let outputs := (stream' fuel entry_point s w).1 in
  (forall first, outputs !! 0 = Some first -> first.1 = N_run_code) /\
  (forall i prev cur,
     outputs !! i = Some prev -> outputs !! S i = Some cur ->
     routed prev cur).
Proof.
  split.
  - intros first. apply stream_head.
  - intros i prev cur. apply stream_routed.
Qed.

(** ** Indices proposed by the reasoning service *)

(** A list that contains an invalid value splits at the first one. *)
Lemma first_invalid (len : nat) (l : list PyVal) :
  existsb (invalid_index len) l = true ->
  exists valid v rest,
    l = (valid ++ v :: rest)%list /\
    Forall (fun x => invalid_index len x = false) valid /\
    invalid_index len v = true.
Proof.
  induction l as [|x l IH]; [done|]. cbn [existsb].
  destruct (invalid_index len x) eqn:Hx.
  - intros _. by exists [], x, l.
  - intros Hl. destruct (IH Hl) as (valid & v & rest & -> & Hvalid & Hv).
    exists (x :: valid), v, rest. split; [done|]. split; [|done].
    by constructor.
Qed.

(** The memory-update node raises as soon as the value at the front of the
    queue is not a valid index; nothing is asked of the reasoning service. *)
Lemma memory_modification_node_invalid (s : State) (w : World) (v : PyVal)
    (rest : list PyVal) (e : Exc) :
  memory_indexes_to_update s = PList (v :: rest) ->
  py_index "index" (length (memories s)) v = Raise e ->
  memory_modification_node llm_invoke s w = (Raise e, w).
Proof.
  intros Hq He. unfold memory_modification_node, bind, lift. rewrite Hq.
  cbn [pop0 fst snd set_memory_indexes_to_update memories].
  unfold list_getitem. by rewrite He.
Qed.

(** The update loop works through the valid values in front of the first
    invalid one, then stops on the exception that value causes. *)
Lemma stream_update_loop (v : PyVal) (rest : list PyVal) (e : Exc)
    (len : nat) (valid : list PyVal) :
  (forall b m w, exists r w',
     llm_invoke (MemoryModificationPrompt b m) w = (Ok r, w')) ->
  py_index "index" len v = Raise e ->
  Forall (fun x => invalid_index len x = false) valid ->
  forall (s : State) (w : World),
    length (memories s) = len ->
    memory_indexes_to_update s = PList ((valid ++ v :: rest)%list) ->
    exists outputs,
      Forall (fun o : Node * State => o.1 = N_memory_modification_node) outputs /\
      forall fuel,
        stream' (S (length valid + fuel)) N_memory_modification_node s w
          = (outputs, Crashed e).
Proof.
  intros Hllm He. induction 1 as [|x valid Hx Hvalid IH]; intros s w Hlen Hq.
  - exists []. split; [done|]. intros fuel.
    eapply stream_node_raises. cbn [node_fn].
    apply memory_modification_node_invalid with (v := v) (rest := rest);
      [done|]. by rewrite Hlen.
  - destruct (py_index_valid "index" _ _ Hx) as [k Hk].
    destruct (py_index_Ok _ _ _ _ Hk) as [Hlt _]. rewrite <- Hlen in Hk, Hlt.
    destruct (lookup_lt_is_Some_2 (memories s) k Hlt) as [m Hm].
    destruct (Hllm (bug_report s) m w) as (r & w1 & Hr).
    pose proof (memory_modification_node_at s w w1 x ((valid ++ v :: rest)%list)
                  k m r Hq Hk Hm Hr) as Hnode.
    set (s1 := set_memories (<[k:=r]> (memories s))
                 (set_memory_indexes_to_update (PList ((valid ++ v :: rest)%list)) s))
      in Hnode.
    destruct (IH s1 w1) as (outputs & Hall & Hrun).
    { cbn. by rewrite length_insert. }
    { done. }
    exists ((N_memory_modification_node, s1) :: outputs).
    split; [by constructor|]. intros fuel.
    rewrite stream_S. cbn [node_fn]. rewrite Hnode.
    assert (Hedge : edge N_memory_modification_node s1
                    = Goto N_memory_modification_node).
    { cbn. unfold update_memory. cbn. by destruct valid. }
    rewrite Hedge. cbn [length Nat.add]. by rewrite Hrun.
Qed.

(** C1, as the code has it: the index list obtained by the memory search is
    stored as it is. When it contains a value outside [[-len, len)] or a
    non-integer, the queue is not emptied and the router picks the
    memory-update node, not memory generation; the updates in front of the
    first such value are carried out (their questions to the reasoning
    service being answered), and then the [IndexError] or [TypeError] of
    that value leaves the run. *)
Theorem C1_unvalidated_index_leaves_the_run (s : State) (w w' : World)
    (response : string) (l : list PyVal) :
  llm_invoke (MemorySearchPrompt (bug_report s) (memories s)) w
    = (Ok response, w') ->
  json_loads response = Ok (PList l) ->
  existsb (invalid_index (length (memories s))) l = true ->
  (forall b m w0, exists r w1,
     llm_invoke (MemoryModificationPrompt b m) w0 = (Ok r, w1)) ->
  exists s1 e outputs steps,
    memory_search_node llm_invoke json_loads s w = (Ok s1, w') /\
    memory_indexes_to_update s1 = PList l /\
    modification_router s1 = Goto N_memory_modification_node /\
    (exc_class e = IndexError \/ exc_class e = TypeError) /\
    Forall (fun o : Node * State => o.1 <> N_memory_generation_node) outputs /\
    forall fuel,
      stream' (steps + fuel) N_memory_search_node s w = (outputs, Crashed e).
Proof.
  intros Hresp Hjson Hbad Hllm.
  destruct (first_invalid _ _ Hbad) as (valid & v & rest & -> & Hvalid & Hv).
  destruct (py_index_invalid "index" _ _ Hv) as (e & He & Hclass).
  set (s1 := set_memory_indexes_to_update (PList ((valid ++ v :: rest)%list)) s).
  assert (Hsearch : memory_search_node llm_invoke json_loads s w = (Ok s1, w')).
  { unfold memory_search_node, bind, lift, ret. by rewrite Hresp, Hjson. }
  assert (Hrouter : modification_router s1 = Goto N_memory_modification_node).
  { unfold modification_router. cbn. by destruct valid. }
  destruct (stream_update_loop v rest e _ valid Hllm He Hvalid s1 w')
    as (outputs & Hall & Hrun); [done..|].
  exists s1, e, ((N_memory_search_node, s1) :: outputs), (S (S (length valid))).
  split; [done|]. split; [done|]. split; [done|]. split; [done|]. split.
  - constructor; [done|].
    eapply Forall_impl; [exact Hall|]. cbn. by intros o ->.
  - intros fuel. cbn [Nat.add]. rewrite stream_S. cbn [node_fn].
    rewrite Hsearch. cbn [edge]. rewrite Hrouter. by rewrite Hrun.
Qed.

(** ** Repair cycles without a bound *)

(** A run whose states stay inside a set on which the invocation always
    raises never reaches [END], however long it is observed. *)
Lemma stream_never_finished (Inv : State -> Prop) :
  (forall n s w s' w', Inv s -> node_fn' n s w = (Ok s', w') -> Inv s') ->
  (forall s w, Inv s ->
     exists e w', call (function s) (arguments s) w = (Raise e, w')) ->
  forall fuel n s w, Inv s -> (stream' fuel n s w).2 <> Finished.
Proof.
  intros Hstep Hfail. induction fuel as [|fuel IH]; intros n s w Hs; [done|].
  rewrite stream_S. destruct (node_fn' n s w) as [[s'|e] w'] eqn:Hnode; [|done].
  destruct (edge n s') as [next|] eqn:Hedge.
  - cbn [snd]. apply IH. by eapply Hstep.
  - exfalso. destruct n; cbn in Hedge;
      unfold error_router, modification_router, update_memory in Hedge;
      try done; try (by case_match).
    destruct (Hfail s w Hs) as (e & w1 & Hcall). cbn [node_fn] in Hnode.
    rewrite (run_code_raised _ _ _ _ Hcall) in Hnode.
    destruct (is_Exception e); simplify_eq; done.
Qed.

(** C2, as the code has it: the state has no attempt counter and the
    workflow no maximum. When the operation keeps failing (the function the
    run starts with fails on the arguments, and so does every function a fix
    installs), the run never reaches the terminal state: whatever number of
    node executions is observed, it is still going round the repair cycle,
    or an exception has stopped it. *)
Theorem C2_failing_operation_never_terminates (failing : Callable -> Prop)
    (s : State) (w : World) (fuel : nat) :
  (forall code w0 namespace w1 f,
     exec code w0 = (Ok namespace, w1) ->
     namespace !! "divide_two_numbers" = Some f -> failing f) ->
  (forall f w0, failing f ->
     exists e w1, call f (arguments s) w0 = (Raise e, w1)) ->
  failing (function s) ->
  (stream' fuel entry_point s w).2 <> Finished.
Proof.
  intros Hfix Hfail Hs.
  apply (stream_never_finished
           (fun s0 => failing (function s0) /\ arguments s0 = arguments s));
    [| |done].
  - intros n s0 w0 s' w1 [Hf Ha] Hnode.
    destruct (node_fn_frame _ _ _ _ _ Hnode) as (Hargs & _ & Hfun & _).
    split; [|congruence].
    destruct (decide (n = N_fix_code)) as [->|Hn]; [|by rewrite Hfun].
    cbn [node_fn] in Hnode.
    destruct (fix_code_function _ _ _ _ Hnode) as [->|(ns & Hexec & Hlook)];
      [done|]. by eapply Hfix.
  - intros s0 w0 [Hf Ha]. rewrite Ha. by apply Hfail.
Qed.

End Properties.

(** * Whole runs of the self-healing workflow *)

Section RunProperties.

Context {Callable World : Type}.
Variable call : Callable -> list PyVal -> World -> Res PyVal * World.
Variable getsource : Callable -> Res string.
Variable llm_invoke : Prompt -> World -> Res string * World.
Variable json_loads : string -> Res PyVal.
Variable exec : string -> World -> Res (gmap string Callable) * World.

Local Abbreviation State := (State (Callable := Callable)).
Local Abbreviation node_fn' := (node_fn call llm_invoke json_loads exec).
Local Abbreviation stream' := (stream call llm_invoke json_loads exec).
Local Abbreviation run' :=
  (run_self_healing_code_system call getsource llm_invoke json_loads exec).

(** A property of states that every node keeps holds of every output. *)
Lemma stream_outputs_invariant (P : State -> Prop) :
  (forall n s w s' w', P s -> node_fn' n s w = (Ok s', w') -> P s') ->
  forall fuel n s w,
    P s -> Forall (fun o : Node * State => P o.2) (stream' fuel n s w).1.
Proof.
  intros Hstep. induction fuel as [|fuel IH]; intros n s w Hs; [by constructor|].
  rewrite (stream_S call llm_invoke json_loads exec).
  destruct (node_fn' n s w) as [[s'|e] w'] eqn:Hnode; [|by constructor].
  assert (P s') as Hs' by (by eapply Hstep).
  destruct (edge n s'); cbn [fst].
  - constructor; [done|]. by apply IH.
  - by repeat constructor.
Qed.

Lemma stream_step (fuel : nat) (n next : Node) (s s' : State) (w w' : World) :
  node_fn' n s w = (Ok s', w') ->
  edge n s' = Goto next ->
  stream' (S fuel) n s w
    = ((n, s') :: (stream' fuel next s' w').1, (stream' fuel next s' w').2).
Proof.
  intros Hnode Hedge.
  by rewrite (stream_S call llm_invoke json_loads exec), Hnode, Hedge.
Qed.

Lemma stream_stop (fuel : nat) (n : Node) (s s' : State) (w w' : World) :
  node_fn' n s w = (Ok s', w') ->
  edge n s' = END ->
  stream' (S fuel) n s w = ([(n, s')], Finished).
Proof.
  intros Hnode Hedge.
  by rewrite (stream_S call llm_invoke json_loads exec), Hnode, Hedge.
Qed.

(** X1. What the caller gets back is always an output of the run-target node
    with the failure flag false: "code is healthy" is the only way out. *)
Theorem returned_state_is_healthy (fuel : nat) (f : Callable)
    (args : list PyVal) (w : World) (n : Node) (s : State) :
  run' fuel f args w = Returned (n, s) ->
  n = N_run_code /\ error s = false.
Proof.
  unfold run_self_healing_code_system.
  destruct (getsource f) as [source|e]; [|done].
  destruct (stream' fuel entry_point (initial_state f source args) w)
    as [outputs status] eqn:Hrun.
  destruct status; [|done..].
  destruct (stream_finished_healthy _ _ _ _ _ _ _ _ _ Hrun) as (s' & Hlast & He).
  rewrite Hlast. by intros [= <- <-].
Qed.

(** X2. The argument list and the source text of the operation are the same in
    every output of a run as at its start: the text shown to the reasoning
    service stays that of the original definition, also after a fix has
    replaced the operation. *)
Theorem arguments_and_source_never_change (fuel : nat) (n : Node) (s : State)
    (w : World) :
  Forall (fun o : Node * State =>
            arguments o.2 = arguments s /\
            function_string o.2 = function_string s)
         (stream' fuel n s w).1.
Proof.
  apply (stream_outputs_invariant
           (fun s0 => arguments s0 = arguments s /\
                      function_string s0 = function_string s)); [|done].
  intros n0 s0 w0 s' w' [Ha Hs] Hnode.
  destruct (node_fn_frame _ _ _ _ _ _ _ _ _ Hnode) as (Ha' & Hs' & _).
  split; congruence.
Qed.

Lemma node_fn_memories_length (n : Node) (s s' : State) (w w' : World) :
  node_fn' n s w = (Ok s', w') ->
  length (memories s') =
    length (memories s) + generations [(n, s')].
Proof.
  intros Hnode. destruct (decide (n = N_memory_generation_node)) as [->|Hn].
  - cbn in Hnode. unfold memory_generation_node, bind, ret in Hnode.
    destruct (llm_invoke _ w) as [[r|e] w1]; simplify_eq.
    unfold generations. rewrite filter_cons_True by done.
    cbn [memories set_memories]. rewrite length_app. cbn. lia.
  - destruct (node_fn_frame _ _ _ _ _ _ _ _ _ Hnode) as (_ & _ & _ & _ & Hl & _).
    rewrite (Hl Hn). unfold generations. rewrite filter_cons_False; [cbn; lia|].
    done.
Qed.

(** X3. The memory store grows by exactly one record per execution of the
    memory-generation node and by nothing else: after any output of a run,
    its length is the length at the start plus the number of generation
    outputs so far. No node ever removes a record. *)
Theorem store_grows_by_generations_only (fuel : nat) (n : Node) (s : State)
    (w : World) (i : nat) (o : Node * State) :
  (stream' fuel n s w).1 !! i = Some o ->
  length (memories o.2) =
    length (memories s) + generations (take (S i) (stream' fuel n s w).1).
Proof.
  revert n s w i. induction fuel as [|fuel IH]; intros n s w i; [done|].
  rewrite (stream_S call llm_invoke json_loads exec).
  destruct (node_fn' n s w) as [[s'|e] w'] eqn:Hnode; [|done].
  pose proof (node_fn_memories_length _ _ _ _ _ Hnode) as Hlen.
  assert (Hcons : forall rest : list (Node * State),
            generations ((n, s') :: rest)
            = generations [(n, s')] + generations rest).
  { intros rest. unfold generations.
    change ((n, s') :: rest) with ([(n, s')] ++ rest)%list.
    by rewrite filter_app, length_app. }
  destruct (edge n s') as [next|]; cbn [fst].
  - destruct i as [|i].
    + intros [= <-]. cbn [snd take]. rewrite take_0. by rewrite Hlen.
    + intros Ho. cbn in Ho. cbn [take]. rewrite Hcons, (IH _ _ _ _ Ho). lia.
  - destruct i as [|i]; [|done]. intros [= <-]. cbn [snd take].
    by rewrite Hlen.
Qed.

(** X4. When loading the pending fix text raises an error, or the text loads
    but binds no [divide_two_numbers], the fix-application node returns the
    state it was given: operation, failure flag and everything else. *)
Theorem fix_code_absorbs_failed_fix (s : State) (w w' : World) :
  (exists e, exec (new_function_string s) w = (Raise e, w') /\
             is_Exception e = true) \/
  (exists namespace, exec (new_function_string s) w = (Ok namespace, w') /\
                     namespace !! "divide_two_numbers" = None) ->
  fix_code exec s w = (Ok s, w').
Proof.
  rewrite fix_code_cases.
  intros [(e & -> & ->)|(namespace & -> & ->)]; done.
Qed.

(** X5. One repair cycle, end to end. The first invocation raises; the
    reasoning service writes a bug report, finds no relevant memory (its
    answer decodes to something empty), writes one record and proposes a
    text; the text loads and binds [divide_two_numbers] to a function that
    succeeds on the same arguments. Then the run is over after exactly
    seven outputs, and the caller gets the new operation, the one new
    record, the failure flag false, and still the description of the
    failure that was repaired. *)
Theorem one_cycle_heals (s : State) (e : Exc)
    (report response record code : string) (queue v : PyVal)
    (namespace : gmap string Callable) (f' : Callable)
    (w0 w1 w2 w3 w4 w5 w6 w7 : World) (fuel : nat) :
  call (function s) (arguments s) w0 = (Raise e, w1) ->
  is_Exception e = true ->
  llm_invoke (BugReportPrompt (function_string s) (exc_str e)) w1
    = (Ok report, w2) ->
  llm_invoke (MemorySearchPrompt report (memories s)) w2 = (Ok response, w3) ->
  json_loads response = Ok queue ->
  truthy queue = false ->
  llm_invoke (MemoryGenerationPrompt report) w3 = (Ok record, w4) ->
  llm_invoke (UpdateCodePrompt (function_string s) (exc_str e)) w4
    = (Ok code, w5) ->
  exec code w5 = (Ok namespace, w6) ->
  namespace !! "divide_two_numbers" = Some f' ->
  call f' (arguments s) w6 = (Ok v, w7) ->
  exists outputs final,
    stream' (7 + fuel) entry_point s w0 = (outputs, Finished) /\
    outputs.*1 = [N_run_code; N_bug_report_node; N_memory_search_node;
                  N_memory_generation_node; N_update_code; N_fix_code;
                  N_run_code] /\
    last outputs = Some (N_run_code, final) /\
    function final = f' /\
    error final = false /\
    error_description final = exc_str e /\
    bug_report final = report /\
    new_function_string final = code /\
    memories final = (memories s ++ [record])%list /\
    memory_indexes_to_update final = queue /\
    arguments final = arguments s.
Proof.
  intros Hcall He Hreport Hsearch Hjson Hqueue Hrecord Hcode Hexec Hlook Hcall'.
  set (s1 := set_error_description (exc_str e) (set_error true s)).
  set (s2 := set_bug_report report s1).
  set (s3 := set_memory_indexes_to_update queue s2).
  set (s4 := set_memories (memories s ++ [record])%list s3).
  set (s5 := set_new_function_string code s4).
  set (s6 := set_error false (set_function f' s5)).
  assert (H1 : node_fn' N_run_code s w0 = (Ok s1, w1)).
  { cbn [node_fn]. by rewrite (run_code_raised call _ _ _ _ Hcall), He. }
  assert (H2 : node_fn' N_bug_report_node s1 w1 = (Ok s2, w2)).
  { cbn [node_fn]. unfold bug_report_node, bind, ret. cbn. by rewrite Hreport. }
  assert (H3 : node_fn' N_memory_search_node s2 w2 = (Ok s3, w3)).
  { cbn [node_fn]. unfold memory_search_node, bind, lift, ret. cbn.
    by rewrite Hsearch, Hjson. }
  assert (H4 : node_fn' N_memory_generation_node s3 w3 = (Ok s4, w4)).
  { cbn [node_fn]. unfold memory_generation_node, bind, ret. cbn.
    by rewrite Hrecord. }
  assert (H5 : node_fn' N_update_code s4 w4 = (Ok s5, w5)).
  { cbn [node_fn]. unfold update_code, bind, ret. cbn. by rewrite Hcode. }
  assert (H6 : node_fn' N_fix_code s5 w5 = (Ok s6, w6)).
  { cbn [node_fn]. rewrite fix_code_cases. cbn. by rewrite Hexec, Hlook. }
  assert (H7 : node_fn' N_run_code s6 w6 = (Ok s6, w7)).
  { cbn [node_fn]. by apply (run_code_returned call s6 w6 w7 v). }
  exists [(N_run_code, s1); (N_bug_report_node, s2); (N_memory_search_node, s3);
          (N_memory_generation_node, s4); (N_update_code, s5);
          (N_fix_code, s6); (N_run_code, s6)], s6.
  split; [|done].
  assert (E3 : edge N_memory_search_node s3 = Goto N_memory_generation_node).
  { cbn. unfold modification_router. cbn. by rewrite Hqueue. }
  change (7 + fuel) with (S (S (S (S (S (S (S fuel))))))).
  rewrite (stream_step _ _ _ _ _ _ _ H1 eq_refl).
  rewrite (stream_step _ _ _ _ _ _ _ H2 eq_refl).
  rewrite (stream_step _ _ _ _ _ _ _ H3 E3).
  rewrite (stream_step _ _ _ _ _ _ _ H4 eq_refl).
  rewrite (stream_step _ _ _ _ _ _ _ H5 eq_refl).
  rewrite (stream_step _ _ _ _ _ _ _ H6 eq_refl).
  by rewrite (stream_stop _ _ _ _ _ _ H7 eq_refl).
Qed.

(** X8. When the answer to the memory search decodes to a non-empty value that
    is not a list (a number, a text, an object), the router still sends the
    run to the memory-update node, whose [pop] fails: the run ends there
    with a [KeyError] (an object) or an [AttributeError] (anything else). *)
Theorem non_list_search_answer_stops_the_run (s : State) (w w' : World)
    (response : string) (queue : PyVal) (fuel : nat) :
  llm_invoke (MemorySearchPrompt (bug_report s) (memories s)) w
    = (Ok response, w') ->
  json_loads response = Ok queue ->
  truthy queue = true ->
  (forall l, queue <> PList l) ->
  exists e,
    stream' (2 + fuel) N_memory_search_node s w
      = ([(N_memory_search_node, set_memory_indexes_to_update queue s)],
         Crashed e) /\
    (exc_class e = KeyError \/ exc_class e = AttributeError).
Proof.
  intros Hsearch Hjson Htruthy Hlist.
  assert (Hpop : exists e, pop0 queue = Raise e /\
            (exc_class e = KeyError \/ exc_class e = AttributeError)).
  { destruct queue; try (eexists; split; [reflexivity|]; by auto).
    by destruct (Hlist l). }
  destruct Hpop as (e & Hpop & Hclass). exists e. split; [|done].
  set (s1 := set_memory_indexes_to_update queue s).
  assert (H1 : node_fn' N_memory_search_node s w = (Ok s1, w')).
  { cbn [node_fn]. unfold memory_search_node, bind, lift, ret.
    by rewrite Hsearch, Hjson. }
  assert (E1 : edge N_memory_search_node s1 = Goto N_memory_modification_node).
  { cbn. unfold modification_router. cbn. by rewrite Htruthy. }
  assert (H2 : node_fn' N_memory_modification_node s1 w' = (Raise e, w')).
  { cbn [node_fn]. unfold memory_modification_node, bind, lift. cbn.
    by rewrite Hpop. }
  change (2 + fuel) with (S (S fuel)).
  rewrite (stream_step _ _ _ _ _ _ _ H1 E1).
  by rewrite (stream_node_raises call llm_invoke json_loads exec _ _ _ _ _ _ H2).
Qed.

(** No value is a valid index into an empty list. *)
Lemma invalid_index_empty (v : PyVal) : invalid_index 0 v = true.
Proof.
  destruct v as [|b|z|m x|t|l|d]; try done; cbn.
  - by destruct b.
  - change (Z.of_nat 0) with 0%Z. change (- 0)%Z with 0%Z.
    destruct (Z.ltb_spec z 0), (Z.leb_spec 0 z); try done; lia.
Qed.

(** X7. [run_self_healing_code_system] starts every run with an empty store, so
    in the first repair cycle there is no record an index could address:
    when the answer to the first memory search decodes to a non-empty list,
    whatever it holds, the caller gets an [IndexError] or a [TypeError]. *)
Theorem first_cycle_cannot_update (f : Callable) (args : list PyVal)
    (source report response : string) (e : Exc) (v : PyVal)
    (rest : list PyVal) (w0 w1 w2 w3 : World) (fuel : nat) :
  getsource f = Ok source ->
  call f args w0 = (Raise e, w1) ->
  is_Exception e = true ->
  llm_invoke (BugReportPrompt source (exc_str e)) w1 = (Ok report, w2) ->
  llm_invoke (MemorySearchPrompt report []) w2 = (Ok response, w3) ->
  json_loads response = Ok (PList (v :: rest)) ->
  exists e',
    run' (4 + fuel) f args w0 = Raised e' /\
    (exc_class e' = IndexError \/ exc_class e' = TypeError).
Proof.
  intros Hsrc Hcall He Hreport Hsearch Hjson.
  destruct (py_index_invalid "index" 0 v (invalid_index_empty v))
    as (e' & He' & Hclass).
  exists e'. split; [|done].
  unfold run_self_healing_code_system. rewrite Hsrc.
  set (s := initial_state f source args).
  set (s1 := set_error_description (exc_str e) (set_error true s)).
  set (s2 := set_bug_report report s1).
  set (s3 := set_memory_indexes_to_update (PList (v :: rest)) s2).
  assert (H1 : node_fn' N_run_code s w0 = (Ok s1, w1)).
  { cbn [node_fn]. by rewrite (run_code_raised call s w0 w1 e Hcall), He. }
  assert (H2 : node_fn' N_bug_report_node s1 w1 = (Ok s2, w2)).
  { cbn [node_fn]. unfold bug_report_node, bind, ret. cbn. by rewrite Hreport. }
  assert (H3 : node_fn' N_memory_search_node s2 w2 = (Ok s3, w3)).
  { cbn [node_fn]. unfold memory_search_node, bind, lift, ret. cbn.
    by rewrite Hsearch, Hjson. }
  assert (H4 : node_fn' N_memory_modification_node s3 w3 = (Raise e', w3)).
  { cbn [node_fn].
    by apply (memory_modification_node_invalid llm_invoke s3 w3 v rest e'). }
  change (4 + fuel) with (S (S (S (S fuel)))). unfold entry_point.
  rewrite (stream_step _ _ _ _ _ _ _ H1 eq_refl).
  rewrite (stream_step _ _ _ _ _ _ _ H2 eq_refl).
  rewrite (stream_step _ _ _ _ _ _ _ H3 eq_refl).
  by rewrite (stream_node_raises call llm_invoke json_loads exec _ _ _ _ _ _ H4).
Qed.

(** X6. A repair cycle that finds a relevant memory. The invocation raises;
    the answer to the search is the one index [i] of a record the store
    has; the reasoning service rewrites that record, proposes a text that
    loads and binds [divide_two_numbers] to a function that succeeds. The
    run is over after seven outputs, none of them of the memory-generation
    node: the store has the length it had, with the rewritten record at
    position [i]. *)
Theorem one_cycle_updates_a_memory (s : State) (e : Exc)
    (report response old merged code : string) (i : Z) (v : PyVal)
    (namespace : gmap string Callable) (f' : Callable)
    (w0 w1 w2 w3 w4 w5 w6 w7 : World) (fuel : nat) :
  call (function s) (arguments s) w0 = (Raise e, w1) ->
  is_Exception e = true ->
  llm_invoke (BugReportPrompt (function_string s) (exc_str e)) w1
    = (Ok report, w2) ->
  llm_invoke (MemorySearchPrompt report (memories s)) w2 = (Ok response, w3) ->
  json_loads response = Ok (PList [PInt i]) ->
  (0 <= i < Z.of_nat (length (memories s)))%Z ->
  memories s !! Z.to_nat i = Some old ->
  llm_invoke (MemoryModificationPrompt report old) w3 = (Ok merged, w4) ->
  llm_invoke (UpdateCodePrompt (function_string s) (exc_str e)) w4
    = (Ok code, w5) ->
  exec code w5 = (Ok namespace, w6) ->
  namespace !! "divide_two_numbers" = Some f' ->
  call f' (arguments s) w6 = (Ok v, w7) ->
  exists outputs final,
    stream' (7 + fuel) entry_point s w0 = (outputs, Finished) /\
    outputs.*1 = [N_run_code; N_bug_report_node; N_memory_search_node;
                  N_memory_modification_node; N_update_code; N_fix_code;
                  N_run_code] /\
    last outputs = Some (N_run_code, final) /\
    function final = f' /\
    error final = false /\
    memories final = <[Z.to_nat i := merged]> (memories s) /\
    length (memories final) = length (memories s) /\
    memory_indexes_to_update final = PList [].
Proof.
  intros Hcall He Hreport Hsearch Hjson Hi Hold Hmerged Hcode Hexec Hlook Hcall'.
  set (s1 := set_error_description (exc_str e) (set_error true s)).
  set (s2 := set_bug_report report s1).
  set (s3 := set_memory_indexes_to_update (PList [PInt i]) s2).
  set (s4 := set_memories (<[Z.to_nat i := merged]> (memories s))
               (set_memory_indexes_to_update (PList []) s3)).
  set (s5 := set_new_function_string code s4).
  set (s6 := set_error false (set_function f' s5)).
  assert (H1 : node_fn' N_run_code s w0 = (Ok s1, w1)).
  { cbn [node_fn]. by rewrite (run_code_raised call _ _ _ _ Hcall), He. }
  assert (H2 : node_fn' N_bug_report_node s1 w1 = (Ok s2, w2)).
  { cbn [node_fn]. unfold bug_report_node, bind, ret. cbn. by rewrite Hreport. }
  assert (H3 : node_fn' N_memory_search_node s2 w2 = (Ok s3, w3)).
  { cbn [node_fn]. unfold memory_search_node, bind, lift, ret. cbn.
    by rewrite Hsearch, Hjson. }
  assert (H4 : node_fn' N_memory_modification_node s3 w3 = (Ok s4, w4)).
  { cbn [node_fn].
    apply (memory_modification_node_at llm_invoke s3 w3 w4 (PInt i) []
             (Z.to_nat i) old merged); [done| |done|done].
    by apply py_index_nonneg. }
  assert (H5 : node_fn' N_update_code s4 w4 = (Ok s5, w5)).
  { cbn [node_fn]. unfold update_code, bind, ret. cbn. by rewrite Hcode. }
  assert (H6 : node_fn' N_fix_code s5 w5 = (Ok s6, w6)).
  { cbn [node_fn]. rewrite fix_code_cases. cbn. by rewrite Hexec, Hlook. }
  assert (H7 : node_fn' N_run_code s6 w6 = (Ok s6, w7)).
  { cbn [node_fn]. by apply (run_code_returned call s6 w6 w7 v). }
  exists [(N_run_code, s1); (N_bug_report_node, s2); (N_memory_search_node, s3);
          (N_memory_modification_node, s4); (N_update_code, s5);
          (N_fix_code, s6); (N_run_code, s6)], s6.
  split.
  - change (7 + fuel) with (S (S (S (S (S (S (S fuel))))))).
    rewrite (stream_step _ _ _ _ _ _ _ H1 eq_refl).
    rewrite (stream_step _ _ _ _ _ _ _ H2 eq_refl).
    rewrite (stream_step _ _ _ _ _ _ _ H3 eq_refl).
    rewrite (stream_step _ _ _ _ _ _ _ H4 eq_refl).
    rewrite (stream_step _ _ _ _ _ _ _ H5 eq_refl).
    rewrite (stream_step _ _ _ _ _ _ _ H6 eq_refl).
    by rewrite (stream_stop _ _ _ _ _ _ H7 eq_refl).
  - repeat split; try done. cbn. apply length_insert.
Qed.

End RunProperties.

(** * The executor *)

Section ExecutorProperties.

Context {World N St : Type}.
Variable node : N -> St -> M (World := World) St.
Variable router : N -> St -> M (World := World) (Decision N).

Lemma run_graph_step (fuel : nat) (n next : N) (s s' : St) (w w' w'' : World) :
  node n s w = (Ok s', w') ->
  router n s' w' = (Ok (Continue next), w'') ->
  run_graph node router (S fuel) n s w
    = ((n, s') :: (run_graph node router fuel next s' w'').1,
       (run_graph node router fuel next s' w'').2).
Proof.
  intros Hnode Hrouter. cbn [run_graph]. rewrite Hnode, Hrouter.
  by destruct (run_graph node router fuel next s' w'').
Qed.

Lemma run_graph_stop (fuel : nat) (n : N) (s s' : St) (w w' w'' : World) :
  node n s w = (Ok s', w') ->
  router n s' w' = (Ok Terminate, w'') ->
  run_graph node router (S fuel) n s w = ([(n, s')], Done).
Proof. intros Hnode Hrouter. cbn [run_graph]. by rewrite Hnode, Hrouter. Qed.

Lemma run_graph_cases (fuel : nat) (n : N) (s : St) (w : World) :
  run_graph node router (S fuel) n s w =
    match node n s w with
    | (Raise e, _) => ([], Failed e)
    | (Ok s', w') =>
        match router n s' w' with
        | (Raise e, _) => ([], Failed e)
        | (Ok Terminate, _) => ([(n, s')], Done)
        | (Ok (Continue next), w'') =>
            ((n, s') :: (run_graph node router fuel next s' w'').1,
             (run_graph node router fuel next s' w'').2)
        end
    end.
Proof.
  cbn [run_graph]. destruct (node n s w) as [[s'|e] w']; [|done].
  destruct (router n s' w') as [[[next|]|e] w'']; [|done..].
  by destruct (run_graph node router fuel next s' w'').
Qed.

(** A relation to the starting state that every node keeps holds between
    the starting state and every output. *)
Lemma run_graph_outputs_invariant (P : St -> Prop) :
  (forall n s w s' w', P s -> node n s w = (Ok s', w') -> P s') ->
  forall fuel n s w,
    P s -> Forall (fun o : N * St => P o.2) (run_graph node router fuel n s w).1.
Proof.
  intros Hstep. induction fuel as [|fuel IH]; intros n s w Hs; [by constructor|].
  rewrite run_graph_cases.
  destruct (node n s w) as [[s'|e] w'] eqn:Hnode; [|by constructor].
  assert (P s') as Hs' by (by eapply Hstep).
  destruct (router n s' w') as [[[next|]|e] w'']; cbn [fst].
  - constructor; [done|]. by apply IH.
  - by repeat constructor.
  - by constructor.
Qed.

End ExecutorProperties.

(** * The memory generator *)

Section SplitProperties.

Import MemoryGenerator.

Variable sep : Ascii.ascii.

Lemma split_cons (c : Ascii.ascii) (s : string) :
  split sep (String c s) =
    if Ascii.eqb c sep then EmptyString :: split sep s
    else match split sep s with
         | piece :: pieces => String c piece :: pieces
         | [] => [String c EmptyString]
         end.
Proof. reflexivity. Qed.

(** [split] gives one piece more than there are separators in the text: an
    empty text still gives one (empty) piece, never an empty list. *)
Lemma split_length (s : string) :
  length (split sep s) = S (occurrences sep s).
Proof.
  induction s as [|c s IH]; [done|]. rewrite split_cons. cbn [occurrences].
  destruct (Ascii.eqb c sep).
  - cbn. by rewrite IH.
  - destruct (split sep s) as [|piece pieces]; [done|]. cbn in *. lia.
Qed.

(** Joining the pieces with the separator gives the text back: [split]
    drops nothing and trims nothing. *)
Lemma join_split (s : string) : join sep (split sep s) = s.
Proof.
  induction s as [|c s IH]; [done|]. rewrite split_cons.
  pose proof (split_length s) as Hlen.
  destruct (Ascii.eqb_spec c sep) as [->|Hc].
  - destruct (split sep s) as [|piece pieces] eqn:Hs; [done|].
    cbn [join]. cbn [join] in IH. by rewrite IH.
  - destruct (split sep s) as [|piece pieces]; [done|].
    destruct pieces as [|piece' pieces]; cbn [join] in *; by rewrite <- IH.
Qed.

(** No piece contains the separator. *)
Lemma split_pieces_have_no_separator (s : string) :
  Forall (fun piece => occurrences sep piece = 0) (split sep s).
Proof.
  induction s as [|c s IH]; [by repeat constructor|]. rewrite split_cons.
  destruct (Ascii.eqb c sep) eqn:Hc.
  - by constructor.
  - destruct (split sep s) as [|piece pieces].
    + repeat constructor. cbn. by rewrite Hc.
    + inversion IH as [|? ? Hpiece Hpieces]; subst.
      constructor; [|done]. cbn. by rewrite Hc.
Qed.

Lemma split_app_no_separator (piece rest : string) :
  occurrences sep piece = 0 ->
  split sep (piece ++ String sep rest) = piece :: split sep rest.
Proof.
  induction piece as [|c piece IH]; intros Hocc.
  - change (EmptyString ++ String sep rest) with (String sep rest).
    rewrite split_cons. by rewrite Ascii.eqb_refl.
  - cbn [occurrences] in Hocc.
    change (String c piece ++ String sep rest)
      with (String c (piece ++ String sep rest)).
    rewrite split_cons. destruct (Ascii.eqb c sep); [done|]. by rewrite IH.
Qed.

Lemma split_no_separator (piece : string) :
  occurrences sep piece = 0 -> split sep piece = [piece].
Proof.
  induction piece as [|c piece IH]; intros Hocc; [done|].
  cbn [occurrences] in Hocc. rewrite split_cons.
  destruct (Ascii.eqb c sep); [done|]. by rewrite IH.
Qed.

(** And the other way round: pieces without separators, at least one of
    them, are what [split] finds in their join. *)
Lemma split_join (pieces : list string) :
  pieces <> [] ->
  Forall (fun piece => occurrences sep piece = 0) pieces ->
  split sep (join sep pieces) = pieces.
Proof.
  intros Hne Hall. induction Hall as [|piece pieces Hpiece Hpieces IH]; [done|].
  destruct pieces as [|piece' pieces].
  - by apply split_no_separator.
  - change (join sep (piece :: piece' :: pieces))
      with (piece ++ String sep (join sep (piece' :: pieces))).
    rewrite split_app_no_separator by done. by rewrite IH.
Qed.

End SplitProperties.

Section MemoryGeneratorProperties.

Import MemoryGenerator.

Context {World : Type}.
Variable llm_invoke : Prompt -> World -> Res string * World.

Local Abbreviation node_fn' := (node_fn llm_invoke).
Local Abbreviation edge' := (edge (World := World)).
Local Abbreviation run_graph' := (run_graph node_fn' edge').

Lemma memory_generation_node_Ok (s : State) (w w' : World)
    (label memory : string) (labels : list string) :
  memory_labels s = label :: labels ->
  llm_invoke (MemoryPrompt (interaction s) label) w = (Ok memory, w') ->
  memory_generation_node llm_invoke s w =
    (Ok (set_memories (memories s ++ [memory])%list
           (set_memory_labels labels s)), w').
Proof.
  intros Hl Hllm. unfold memory_generation_node, bind, lift, ret.
  by rewrite Hl, Hllm.
Qed.

(** X14. Every output of a run carries the interaction and the schema the run
    was started with, and a memory list that begins with the memories of
    the start: the generator only ever appends. *)
Theorem generator_only_appends (fuel : nat) (n : Node) (s : State) (w : World) :
  Forall (fun o : Node * State =>
            interaction o.2 = interaction s /\
            memory_schema o.2 = memory_schema s /\
            memories s `prefix_of` memories o.2)
         (run_graph' fuel n s w).1.
Proof.
  apply (run_graph_outputs_invariant node_fn' edge'
           (fun s0 => interaction s0 = interaction s /\
                      memory_schema s0 = memory_schema s /\
                      memories s `prefix_of` memories s0)); [|done].
  intros n0 s0 w0 s' w' (Hi & Hs & Hp) Hnode. destruct n0; cbn in Hnode.
  - unfold memory_type_determination_node, bind, ret in Hnode.
    destruct (llm_invoke _ w0) as [[r|e] w1]; by simplify_eq.
  - unfold memory_generation_node, bind, lift, ret in Hnode.
    destruct (memory_labels s0) as [|label labels]; [done|].
    destruct (llm_invoke _ w0) as [[r|e] w1]; simplify_eq.
    cbn. split; [done|]. split; [done|]. by apply prefix_app_r.
Qed.

(** With labels pending and the reasoning service answering, the
    generation node is run once per label and the run ends. *)
Lemma generation_loop (labels : list string) :
  (forall i l w0, exists r w1,
     llm_invoke (MemoryPrompt i l) w0 = (Ok r, w1)) ->
  forall (label : string) (s : State) (w : World),
    memory_labels s = label :: labels ->
    exists outputs final,
      (forall fuel,
         run_graph' (S (length labels) + fuel) N_memory_generation_node s w
           = (outputs, Done)) /\
      length outputs = S (length labels) /\
      last outputs = Some (N_memory_generation_node, final) /\
      memory_labels final = [] /\
      length (memories final) = length (memories s) + S (length labels).
Proof.
  intros Hllm. induction labels as [|label' labels IH]; intros label s w Hl.
  - destruct (Hllm (interaction s) label w) as (r & w1 & Hr).
    pose proof (memory_generation_node_Ok s w w1 label r [] Hl Hr) as Hnode.
    set (s1 := set_memories (memories s ++ [r])%list (set_memory_labels [] s))
      in Hnode.
    exists [(N_memory_generation_node, s1)], s1.
    split; [|split; [done|split; [done|split; [done|]]]].
    + intros fuel.
      by apply (run_graph_stop node_fn' edge' fuel N_memory_generation_node
                  s s1 w w1 w1 Hnode).
    + cbn. rewrite length_app. cbn. lia.
  - destruct (Hllm (interaction s) label w) as (r & w1 & Hr).
    pose proof (memory_generation_node_Ok s w w1 label r _ Hl Hr) as Hnode.
    set (s1 := set_memories (memories s ++ [r])%list
                 (set_memory_labels (label' :: labels) s)) in Hnode.
    destruct (IH label' s1 w1 eq_refl)
      as (outputs & final & Hrun & Hlen & Hlast & Hlabels & Hmem).
    exists ((N_memory_generation_node, s1) :: outputs), final.
    split; [|split; [|split; [|split; [done|]]]].
    + intros fuel. cbn [length Nat.add].
      rewrite (run_graph_step node_fn' edge' _ N_memory_generation_node
                 N_memory_generation_node s s1 w w1 w1 Hnode eq_refl).
      pose proof (Hrun fuel) as Hrest. cbn [Nat.add] in Hrest.
      by rewrite Hrest.
    + cbn. by rewrite Hlen.
    + destruct outputs; [done|]. by rewrite last_cons, Hlast.
    + rewrite Hmem. cbn. rewrite length_app. cbn. lia.
Qed.

(** X15. A whole run of the generator, the reasoning service answering: the
    answer to the first question is cut at every ['|'], one memory is
    written per piece, and the run ends. With [k] separators in the answer
    there are [k + 1] memories more than before and [k + 2] outputs; an
    answer without separator, even an empty one, gives one memory. *)
Theorem generator_writes_one_memory_per_label (s : State) (w w1 : World)
    (response : string) :
  llm_invoke (MemoryTypePrompt (interaction s) (memory_schema s)) w
    = (Ok response, w1) ->
  (forall i l w0, exists r w',
     llm_invoke (MemoryPrompt i l) w0 = (Ok r, w')) ->
  exists outputs final,
    (forall fuel,
       stream llm_invoke (2 + occurrences "|" response + fuel) s w
         = (outputs, Done)) /\
    length outputs = 2 + occurrences "|" response /\
    last outputs = Some (N_memory_generation_node, final) /\
    memory_labels final = [] /\
    length (memories final)
      = length (memories s) + 1 + occurrences "|" response.
Proof.
  intros Hresp Hllm.
  pose proof (split_length "|" response) as Hsplit.
  destruct (split "|" response) as [|label labels] eqn:Hlabels; [done|].
  cbn [length] in Hsplit. injection Hsplit as Hsplit.
  set (s1 := set_memory_labels (label :: labels) s).
  assert (Hnode : node_fn' N_memory_type_determination_node s w = (Ok s1, w1)).
  { cbn. unfold memory_type_determination_node, bind, ret.
    by rewrite Hresp, Hlabels. }
  destruct (generation_loop labels Hllm label s1 w1 eq_refl)
    as (outputs & final & Hrun & Hlen & Hlast & Hfinal & Hmem).
  exists ((N_memory_type_determination_node, s1) :: outputs), final.
  split; [|split; [|split; [|split; [done|]]]].
  - intros fuel. unfold stream, entry_point. rewrite <- Hsplit.
    change (2 + length labels + fuel) with (S (S (length labels + fuel))).
    rewrite (run_graph_step node_fn' edge' _ N_memory_type_determination_node
               N_memory_generation_node s s1 w w1 w1 Hnode eq_refl).
    pose proof (Hrun fuel) as Hrest. cbn [Nat.add] in Hrest.
    by rewrite Hrest.
  - cbn. rewrite Hlen. lia.
  - destruct outputs; [done|]. by rewrite last_cons, Hlast.
  - rewrite Hmem. cbn. lia.
Qed.

(** X13. The labels the determination node stores are the answer of the
    reasoning service cut at every ['|']: one label more than there are
    separators (so at least one, also for an empty answer), none of them
    containing a separator, nothing trimmed or dropped (joined with ['|']
    they are the answer again). The memories are left alone. *)
Theorem determination_cuts_the_answer (s : State) (w w' : World)
    (response : string) :
  llm_invoke (MemoryTypePrompt (interaction s) (memory_schema s)) w
    = (Ok response, w') ->
  exists s',
    memory_type_determination_node llm_invoke s w = (Ok s', w') /\
    length (memory_labels s') = S (occurrences "|" response) /\
    Forall (fun label => occurrences "|" label = 0) (memory_labels s') /\
    join "|" (memory_labels s') = response /\
    memories s' = memories s.
Proof.
  intros Hllm. exists (set_memory_labels (split "|" response) s).
  split; [|split; [|split; [|split]]].
  - unfold memory_type_determination_node, bind, ret. by rewrite Hllm.
  - apply split_length.
  - apply split_pieces_have_no_separator.
  - apply join_split.
  - done.
Qed.

End MemoryGeneratorProperties.

(** * The memory system *)

Section MemorySystemProperties.

Import MemorySystem.

Context {World : Type}.
Variable llm_invoke : Prompt -> World -> Res string * World.
Variable json_loads : string -> Res PyVal.

Local Abbreviation node_fn' := (node_fn llm_invoke json_loads).
Local Abbreviation edge' := (edge (World := World)).
Local Abbreviation run_graph' := (run_graph node_fn' edge').

Lemma memory_search_node_Ok (s : State) (w w' : World) (response : string)
    (queue : PyVal) :
  llm_invoke (MemorySearchPrompt (interaction s) (memories s)) w
    = (Ok response, w') ->
  json_loads response = Ok queue ->
  memory_search_node llm_invoke json_loads s w
    = (Ok (set_memory_indexes_to_update queue s), w').
Proof.
  intros Hllm Hjson. unfold memory_search_node, bind, lift, ret.
  by rewrite Hllm, Hjson.
Qed.

Lemma memory_modification_node_Ok (s : State) (w w' : World) (v : PyVal)
    (rest : list PyVal) (k : nat) (m response : string) :
  memory_indexes_to_update s = PList (v :: rest) ->
  py_index "index" (length (memories s)) v = Ok k ->
  memories s !! k = Some m ->
  llm_invoke (MemoryModificationPrompt (interaction s) m) w = (Ok response, w') ->
  memory_modification_node llm_invoke s w =
    (Ok (set_memories (<[k:=response]> (memories s))
           (set_memory_indexes_to_update (PList rest) s)), w').
Proof.
  intros Hq Hk Hm Hllm.
  destruct (py_index_Ok _ _ _ _ Hk) as [_ Hwhat].
  unfold memory_modification_node, bind, lift, ret. rewrite Hq.
  cbn [pop0 fst snd set_memory_indexes_to_update memories interaction].
  unfold list_getitem. rewrite Hk, Hm, Hllm.
  unfold list_setitem. rewrite (Hwhat "assignment index"). reflexivity.
Qed.

Lemma memory_modification_node_Raise (s : State) (w : World) (v : PyVal)
    (rest : list PyVal) (e : Exc) :
  memory_indexes_to_update s = PList (v :: rest) ->
  py_index "index" (length (memories s)) v = Raise e ->
  memory_modification_node llm_invoke s w = (Raise e, w).
Proof.
  intros Hq He. unfold memory_modification_node, bind, lift. rewrite Hq.
  cbn [pop0 fst snd set_memory_indexes_to_update memories].
  unfold list_getitem. by rewrite He.
Qed.

(** X9. The memory system never adds or removes a record and never touches the
    interaction, the schema or the labels: every output of a run has a
    store of the length it had at the start. *)
Theorem memory_system_keeps_store_size (fuel : nat) (n : Node) (s : State)
    (w : World) :
  Forall (fun o : Node * State =>
            length (memories o.2) = length (memories s) /\
            interaction o.2 = interaction s /\
            memory_schema o.2 = memory_schema s /\
            memory_labels o.2 = memory_labels s)
         (run_graph' fuel n s w).1.
Proof.
  apply (run_graph_outputs_invariant node_fn' edge'
           (fun s0 => length (memories s0) = length (memories s) /\
                      interaction s0 = interaction s /\
                      memory_schema s0 = memory_schema s /\
                      memory_labels s0 = memory_labels s)); [|done].
  intros n0 s0 w0 s' w' (Hl & Hi & Hs & Hls) Hnode. destruct n0; cbn in Hnode.
  - unfold memory_search_node, bind, lift, ret in Hnode.
    repeat case_match; by simplify_eq.
  - unfold memory_modification_node, bind, lift, ret, list_setitem in Hnode.
    repeat case_match; simplify_eq. cbn. by rewrite length_insert.
Qed.

(** X10. When the answer to the search decodes to an empty list (or to any other
    empty value), [run_memory_system] is over after the search: the caller
    gets the store back as it was passed in. *)
Theorem memory_system_nothing_to_update (fuel : nat) (interaction : string)
    (schema records : list string) (w w' : World) (response : string)
    (queue : PyVal) :
  llm_invoke (MemorySearchPrompt interaction records) w = (Ok response, w') ->
  json_loads response = Ok queue ->
  truthy queue = false ->
  run_memory_system llm_invoke json_loads (S fuel) interaction schema records w
    = Returns (N_memory_search_node,
               mkState interaction schema [] records queue).
Proof.
  intros Hllm Hjson Hq. unfold run_memory_system, stream, entry_point.
  set (s := mkState interaction schema [] records (PList [])).
  pose proof (memory_search_node_Ok s w w' response queue Hllm Hjson) as Hnode.
  rewrite (run_graph_stop node_fn' edge' fuel N_memory_search_node s
             (set_memory_indexes_to_update queue s) w w' w' Hnode); [done|].
  cbn. unfold modification_router. cbn. by rewrite Hq.
Qed.

(** The update loop on a queue of valid indices: one update per index, then
    the end; a position that none of the indices addresses keeps its
    record. *)
Lemma update_loop_done (len : nat) (rest : list PyVal) :
  (forall i m w0, exists r w1,
     llm_invoke (MemoryModificationPrompt i m) w0 = (Ok r, w1)) ->
  Forall (fun x => invalid_index len x = false) rest ->
  forall (v : PyVal) (s : State) (w : World),
    invalid_index len v = false ->
    length (memories s) = len ->
    memory_indexes_to_update s = PList (v :: rest) ->
    exists outputs final,
      (forall fuel,
         run_graph' (S (length rest) + fuel) N_memory_modification_node s w
           = (outputs, Done)) /\
      length outputs = S (length rest) /\
      last outputs = Some (N_memory_modification_node, final) /\
      memory_indexes_to_update final = PList [] /\
      length (memories final) = len /\
      forall j,
        (forall x, x ∈ v :: rest -> py_index "index" len x <> Ok j) ->
        memories final !! j = memories s !! j.
Proof.
  intros Hllm. induction 1 as [|v' rest Hv' Hrest IH]; intros v s w Hv Hlen Hq.
  - destruct (py_index_valid "index" _ _ Hv) as [k Hk].
    destruct (py_index_Ok _ _ _ _ Hk) as [Hlt _]. rewrite <- Hlen in Hk, Hlt.
    destruct (lookup_lt_is_Some_2 (memories s) k Hlt) as [m Hm].
    destruct (Hllm (interaction s) m w) as (r & w1 & Hr).
    pose proof (memory_modification_node_Ok s w w1 v [] k m r Hq Hk Hm Hr)
      as Hnode.
    set (s1 := set_memories (<[k:=r]> (memories s))
                 (set_memory_indexes_to_update (PList []) s)) in Hnode.
    exists [(N_memory_modification_node, s1)], s1.
    split; [|split; [done|split; [done|split; [done|split]]]].
    + intros fuel.
      by apply (run_graph_stop node_fn' edge' fuel N_memory_modification_node
                  s s1 w w1 w1 Hnode).
    + cbn. by rewrite length_insert.
    + intros j Hj. cbn. apply list_lookup_insert_ne. intros <-.
      apply (Hj v); [by left|]. by rewrite <- Hlen.
  - destruct (py_index_valid "index" _ _ Hv) as [k Hk].
    destruct (py_index_Ok _ _ _ _ Hk) as [Hlt _]. rewrite <- Hlen in Hk, Hlt.
    destruct (lookup_lt_is_Some_2 (memories s) k Hlt) as [m Hm].
    destruct (Hllm (interaction s) m w) as (r & w1 & Hr).
    pose proof (memory_modification_node_Ok s w w1 v (v' :: rest) k m r
                  Hq Hk Hm Hr) as Hnode.
    set (s1 := set_memories (<[k:=r]> (memories s))
                 (set_memory_indexes_to_update (PList (v' :: rest)) s))
      in Hnode.
    destruct (IH v' s1 w1 Hv')
      as (outputs & final & Hrun & Hn & Hlast & Hfin & Hsize & Hframe).
    { cbn. by rewrite length_insert. }
    { done. }
    exists ((N_memory_modification_node, s1) :: outputs), final.
    split; [|split; [|split; [|split; [done|split; [done|]]]]].
    + intros fuel. cbn [length Nat.add].
      rewrite (run_graph_step node_fn' edge' _ N_memory_modification_node
                 N_memory_modification_node s s1 w w1 w1 Hnode eq_refl).
      pose proof (Hrun fuel) as Hrest'. cbn [Nat.add] in Hrest'.
      by rewrite Hrest'.
    + cbn. by rewrite Hn.
    + destruct outputs; [done|]. by rewrite last_cons, Hlast.
    + intros j Hj. rewrite Hframe.
      * cbn. apply list_lookup_insert_ne. intros <-.
        apply (Hj v); [by left|]. by rewrite <- Hlen.
      * intros x Hx. apply Hj. by right.
Qed.

(** X11. A whole run of the memory system on indices the store has: the answer
    to the search decodes to a list of integers from [-len] to [len - 1],
    the reasoning service answers every update. The run ends after the
    search and one update per index, the queue is empty, and every record
    at a position that no index of the list addresses is the record the
    caller passed in. *)
Theorem memory_system_updates_listed_records (s : State) (w w' : World)
    (response : string) (indexes : list PyVal) :
  llm_invoke (MemorySearchPrompt (interaction s) (memories s)) w
    = (Ok response, w') ->
  json_loads response = Ok (PList indexes) ->
  Forall (fun x => invalid_index (length (memories s)) x = false) indexes ->
  (forall i m w0, exists r w1,
     llm_invoke (MemoryModificationPrompt i m) w0 = (Ok r, w1)) ->
  exists outputs n final,
    (forall fuel,
       stream llm_invoke json_loads (S (length indexes) + fuel) s w
         = (outputs, Done)) /\
    length outputs = S (length indexes) /\
    last outputs = Some (n, final) /\
    memory_indexes_to_update final = PList [] /\
    length (memories final) = length (memories s) /\
    forall j,
      (forall x, x ∈ indexes ->
                 py_index "index" (length (memories s)) x <> Ok j) ->
      memories final !! j = memories s !! j.
Proof.
  intros Hsearch Hjson Hvalid Hllm.
  set (s1 := set_memory_indexes_to_update (PList indexes) s).
  pose proof (memory_search_node_Ok s w w' response _ Hsearch Hjson) as Hnode.
  fold s1 in Hnode.
  destruct Hvalid as [|v rest Hv Hrest].
  - exists [(N_memory_search_node, s1)], N_memory_search_node, s1.
    split; [|done]. intros fuel.
    by apply (run_graph_stop node_fn' edge' fuel N_memory_search_node
                s s1 w w' w' Hnode).
  - destruct (update_loop_done (length (memories s)) rest Hllm Hrest v s1 w'
                Hv eq_refl eq_refl)
      as (outputs & final & Hrun & Hn & Hlast & Hfin & Hsize & Hframe).
    exists ((N_memory_search_node, s1) :: outputs),
      N_memory_modification_node, final.
    split; [|split; [|split; [|split; [done|split]]]].
    + intros fuel. unfold stream, entry_point. cbn [length Nat.add].
      rewrite (run_graph_step node_fn' edge' _ N_memory_search_node
                 N_memory_modification_node s s1 w w' w' Hnode eq_refl).
      pose proof (Hrun fuel) as Hrest'. cbn [Nat.add] in Hrest'.
      by rewrite Hrest'.
    + cbn. by rewrite Hn.
    + destruct outputs; [done|]. by rewrite last_cons, Hlast.
    + done.
    + done.
Qed.

(** The update loop stops at the first value that is not a valid index. *)
Lemma update_loop_failed (v : PyVal) (rest : list PyVal) (e : Exc)
    (len : nat) (valid : list PyVal) :
  (forall i m w0, exists r w1,
     llm_invoke (MemoryModificationPrompt i m) w0 = (Ok r, w1)) ->
  py_index "index" len v = Raise e ->
  Forall (fun x => invalid_index len x = false) valid ->
  forall (s : State) (w : World),
    length (memories s) = len ->
    memory_indexes_to_update s = PList (valid ++ v :: rest)%list ->
    forall fuel,
      (run_graph' (S (length valid + fuel)) N_memory_modification_node s w).2
        = Failed e.
Proof.
  intros Hllm He. induction 1 as [|x valid Hx Hvalid IH]; intros s w Hlen Hq fuel.
  - rewrite run_graph_cases. cbn [node_fn].
    rewrite (memory_modification_node_Raise s w v rest e Hq); [done|].
    by rewrite Hlen.
  - destruct (py_index_valid "index" _ _ Hx) as [k Hk].
    destruct (py_index_Ok _ _ _ _ Hk) as [Hlt _]. rewrite <- Hlen in Hk, Hlt.
    destruct (lookup_lt_is_Some_2 (memories s) k Hlt) as [m Hm].
    destruct (Hllm (interaction s) m w) as (r & w1 & Hr).
    pose proof (memory_modification_node_Ok s w w1 x (valid ++ v :: rest)%list
                  k m r Hq Hk Hm Hr) as Hnode.
    set (s1 := set_memories (<[k:=r]> (memories s))
                 (set_memory_indexes_to_update
                    (PList (valid ++ v :: rest)%list) s)) in Hnode.
    cbn [length Nat.add].
    rewrite (run_graph_step node_fn' edge' _ N_memory_modification_node
               N_memory_modification_node s s1 w w1 w1 Hnode).
    + cbn [snd]. apply IH; [|done]. cbn. by rewrite length_insert.
    + cbn. unfold modification_router. cbn. by destruct valid.
Qed.

(** X12. An index the store does not have, or a value that is no integer, in the
    answer to the search: the updates in front of it are carried out, and
    then [run_memory_system] raises the [IndexError] or [TypeError] to its
    caller. *)
Theorem memory_system_raises_on_invalid_index (interaction : string)
    (schema records : list string) (w w' : World) (response : string)
    (indexes : list PyVal) :
  llm_invoke (MemorySearchPrompt interaction records) w = (Ok response, w') ->
  json_loads response = Ok (PList indexes) ->
  existsb (invalid_index (length records)) indexes = true ->
  (forall i m w0, exists r w1,
     llm_invoke (MemoryModificationPrompt i m) w0 = (Ok r, w1)) ->
  exists e steps,
    (exc_class e = IndexError \/ exc_class e = TypeError) /\
    forall fuel,
      run_memory_system llm_invoke json_loads (steps + fuel) interaction
        schema records w = Raises e.
Proof.
  intros Hsearch Hjson Hbad Hllm.
  destruct (first_invalid _ _ Hbad) as (valid & v & rest & -> & Hvalid & Hv).
  destruct (py_index_invalid "index" _ _ Hv) as (e & He & Hclass).
  exists e, (S (S (length valid))). split; [done|]. intros fuel.
  unfold run_memory_system, stream, entry_point.
  set (s := mkState interaction schema [] records (PList [])).
  set (s1 := set_memory_indexes_to_update (PList (valid ++ v :: rest)%list) s).
  pose proof (memory_search_node_Ok s w w' response _ Hsearch Hjson) as Hnode.
  fold s1 in Hnode. cbn [Nat.add].
  rewrite (run_graph_step node_fn' edge' _ N_memory_search_node
             N_memory_modification_node s s1 w w' w' Hnode).
  - pose proof (update_loop_failed v rest e (length records) valid Hllm He
                  Hvalid s1 w' eq_refl eq_refl fuel) as Hloop.
    unfold last_output.
    destruct (run_graph' (S (length valid + fuel)) N_memory_modification_node
                s1 w') as [outputs status].
    cbn in Hloop. by subst status.
  - cbn. unfold modification_router. cbn. by destruct valid.
Qed.

End MemorySystemProperties.

(** * The schema generator *)

Section SchemaGeneratorProperties.

Import SchemaGenerator.

Context {World : Type}.
Variable llm_invoke : Prompt -> World -> Res string * World.
Variable input : string -> World -> Res string * World.

Local Abbreviation node_fn' := (node_fn llm_invoke input).
Local Abbreviation edge' := (edge input).
Local Abbreviation run_graph' := (run_graph node_fn' edge').

Lemma schema_node_fn_Ok (n : Node) (s s' : State) (w w' : World) :
  node_fn' n s w = (Ok s', w') ->
  idea s' = idea s /\
  match n with
  | N_schema_generation_node =>
      exists schema, memory_schema s' = (memory_schema s ++ [schema])%list /\
                     update_instructions s' = update_instructions s
  | N_update_instrctions_node => memory_schema s' = memory_schema s
  end.
Proof.
  destruct n; cbn; unfold schema_generation_node, update_instrctions_node,
    bind, ret; intros Hnode; repeat case_match; simplify_eq; cbn; eauto.
Qed.

(** X16. Every output of a run carries the idea the run was started with and a
    schema list that begins with the one of the start: earlier iterations
    of the schema are kept, each new one is appended. *)
Theorem schema_generator_only_appends (fuel : nat) (n : Node) (s : State)
    (w : World) :
  Forall (fun o : Node * State =>
            idea o.2 = idea s /\ memory_schema s `prefix_of` memory_schema o.2)
         (run_graph' fuel n s w).1.
Proof.
  apply (run_graph_outputs_invariant node_fn' edge'
           (fun s0 => idea s0 = idea s /\
                      memory_schema s `prefix_of` memory_schema s0)); [|done].
  intros n0 s0 w0 s' w' [Hi Hp] Hnode.
  destruct (schema_node_fn_Ok _ _ _ _ _ Hnode) as [Hi' Hn].
  split; [congruence|]. destruct n0.
  - destruct Hn as (schema & -> & _). by apply prefix_app_r.
  - by rewrite Hn.
Qed.

Lemma schema_run_done (fuel : nat) :
  forall (n : Node) (s : State) (w : World) (outputs : list (Node * State)),
    run_graph' fuel n s w = (outputs, Done) ->
    exists k final,
      last outputs = Some (N_schema_generation_node, final) /\
      length (memory_schema final) = length (memory_schema s) + S k /\
      length outputs =
        match n with
        | N_schema_generation_node => 2 * k + 1
        | N_update_instrctions_node => 2 * k + 2
        end.
Proof.
  induction fuel as [|fuel IH]; intros n s w outputs; [done|].
  rewrite run_graph_cases.
  destruct (node_fn' n s w) as [[s'|e] w'] eqn:Hnode; [|done].
  destruct (schema_node_fn_Ok _ _ _ _ _ Hnode) as [_ Hn].
  destruct (edge' n s' w') as [[[next|]|e] w''] eqn:Hedge; [| |done].
  - intros [= <- Hst].
    destruct (run_graph' fuel next s' w'') as [rest status] eqn:Hrest.
    cbn in Hst. subst status.
    destruct (IH _ _ _ _ Hrest) as (k & final & Hlast & Hlen & Hcount).
    assert (Hl : last ((n, s') :: rest)
                 = Some (N_schema_generation_node, final)).
    { destruct rest; [done|]. by rewrite last_cons, Hlast. }
    destruct n; cbn in Hedge.
    + unfold update_schema, bind, ret in Hedge.
      destruct (input _ w') as [[answer|e] w3]; [|done].
      destruct (existsb _ stop_words); simplify_eq.
      destruct Hn as (schema & Hs & _). rewrite Hs, length_app in Hlen.
      exists (S k), final. cbn in *. split; [done|]. split; lia.
    + unfold ret in Hedge. simplify_eq. rewrite Hn in Hlen.
      exists k, final. cbn in *. split; [done|]. split; lia.
  - intros [= <-]. destruct n; cbn in Hedge; [|by unfold ret in Hedge].
    destruct Hn as (schema & Hs & _). exists 0, s'. rewrite Hs, length_app.
    cbn. split; [done|]. split; lia.
Qed.

(** X17. A run of the schema generator that ended went through the generation
    node once more than through the instruction node: for some [k] it has
    [2k + 1] outputs, the last one that of the generation node, and the
    schema list is [k + 1] entries longer than at the start. *)
Theorem schema_generator_finished_run (fuel : nat) (s : State) (w : World)
    (outputs : list (Node * State)) :
  stream llm_invoke input fuel s w = (outputs, Done) ->
  exists k final,
    length outputs = 2 * k + 1 /\
    last outputs = Some (N_schema_generation_node, final) /\
    length (memory_schema final) = length (memory_schema s) + k + 1.
Proof.
  intros Hrun.
  destruct (schema_run_done _ _ _ _ _ Hrun) as (k & final & Hlast & Hlen & Hn).
  exists k, final. cbn in Hn. split; [done|]. split; [done|]. lia.
Qed.

(** X18. The user declines at the first question (one of no, n, quit, q, exit,
    e, spelled exactly so): [run_schema_generator] returns after a single
    output, whose schema list is the one answer of the reasoning service. *)
Theorem schema_generator_stops_when_told (fuel : nat) (topic schema answer : string)
    (w w1 w2 : World) :
  llm_invoke (SchemaPrompt topic [] None) w = (Ok schema, w1) ->
  input "Do you wish to iterate over this schema? (yes or no)" w1
    = (Ok answer, w2) ->
  answer ∈ stop_words ->
  stream llm_invoke input (S fuel) (mkState topic [] None) w
    = ([(N_schema_generation_node, mkState topic [schema] None)], Done) /\
  run_schema_generator llm_invoke input (S fuel) topic w = Returns tt.
Proof.
  intros Hllm Hinput Hstop.
  assert (Hrun : stream llm_invoke input (S fuel) (mkState topic [] None) w
            = ([(N_schema_generation_node, mkState topic [schema] None)], Done)).
  { unfold stream, entry_point.
    apply (run_graph_stop node_fn' edge' fuel N_schema_generation_node
             _ _ w w1 w2).
    - cbn. unfold schema_generation_node, bind, ret. cbn. by rewrite Hllm.
    - cbn. unfold update_schema, bind, ret. rewrite Hinput.
      assert (existsb (String.eqb answer) stop_words = true) as ->; [|done].
      apply existsb_exists. exists answer. split; [|apply String.eqb_refl].
      by apply list_elem_of_In. }
  split; [done|]. unfold run_schema_generator. by rewrite Hrun.
Qed.

(** X19. One iteration, end to end: the user asks for another round with an
    answer that is none of the stop words, types instructions, and declines
    after the second schema. The second question to the reasoning service
    carries the first schema and the instructions as typed; the run has
    three outputs and the schema list holds both schemas, in order. *)
Theorem schema_generator_one_iteration (fuel : nat)
    (topic first again instructions second answer : string)
    (w w1 w2 w3 w4 w5 : World) :
  llm_invoke (SchemaPrompt topic [] None) w = (Ok first, w1) ->
  input "Do you wish to iterate over this schema? (yes or no)" w1
    = (Ok again, w2) ->
  again ∉ stop_words ->
  input "Please provide updated instructions" w2 = (Ok instructions, w3) ->
  llm_invoke (SchemaPrompt topic [first] (Some instructions)) w3
    = (Ok second, w4) ->
  input "Do you wish to iterate over this schema? (yes or no)" w4
    = (Ok answer, w5) ->
  answer ∈ stop_words ->
  stream llm_invoke input (3 + fuel) (mkState topic [] None) w
    = ([(N_schema_generation_node, mkState topic [first] None);
        (N_update_instrctions_node, mkState topic [first] (Some instructions));
        (N_schema_generation_node,
         mkState topic [first; second] (Some instructions))], Done).
Proof.
  intros Hfirst Hagain Hgo Htyped Hsecond Hanswer Hstop.
  assert (Hyes : existsb (String.eqb again) stop_words = false).
  { apply not_true_is_false. intros Hin. apply Hgo.
    apply existsb_exists in Hin as (x & Hx & Heq).
    apply String.eqb_eq in Heq as ->. by apply list_elem_of_In. }
  assert (Hno : existsb (String.eqb answer) stop_words = true).
  { apply existsb_exists. exists answer. split; [|apply String.eqb_refl].
    by apply list_elem_of_In. }
  unfold stream, entry_point. change (3 + fuel) with (S (S (S fuel))).
  rewrite (run_graph_step node_fn' edge' _ N_schema_generation_node
             N_update_instrctions_node (mkState topic [] None)
             (mkState topic [first] None) w w1 w2).
  2: { cbn. unfold schema_generation_node, bind, ret. cbn. by rewrite Hfirst. }
  2: { cbn. unfold update_schema, bind, ret. by rewrite Hagain, Hyes. }
  rewrite (run_graph_step node_fn' edge' _ N_update_instrctions_node
             N_schema_generation_node (mkState topic [first] None)
             (mkState topic [first] (Some instructions)) w2 w3 w3).
  2: { cbn. unfold update_instrctions_node, bind, ret. by rewrite Htyped. }
  2: { done. }
  rewrite (run_graph_stop node_fn' edge' _ N_schema_generation_node
             (mkState topic [first] (Some instructions))
             (mkState topic [first; second] (Some instructions)) w3 w4 w5).
  - done.
  - cbn. unfold schema_generation_node, bind, ret. cbn. by rewrite Hsecond.
  - cbn. unfold update_schema, bind, ret. by rewrite Hanswer, Hno.
Qed.

End SchemaGeneratorProperties.

(** * The recorded sessions, checked *)

Import Scenario.

(** The notebook's first session: the division fails, nothing relevant is
    remembered, one record is written, the proposed fix is installed and the
    second invocation succeeds. The failure description of the first
    invocation is still in the state the caller gets back. *)
Example session_heals :
  run heals 7 divide_two_numbers [PInt 10; PInt 0] tt
    = Returned (N_run_code, installed).
Proof. reflexivity. Qed.

Example session_heals_outputs :
  (Scenario.stream heals 7 N_run_code started tt).1.*1
    = [N_run_code; N_bug_report_node; N_memory_search_node;
       N_memory_generation_node; N_update_code; N_fix_code; N_run_code].
Proof. reflexivity. Qed.

(** ** C1 *)

(** The reasoning service answers the search with [[0]] while the store is
    empty: the queue is kept as answered, the router picks the memory-update
    node, and the caller of the run gets the [IndexError]. *)
Lemma C1_counterexample :
  exists s1,
    memory_search_node (llm_invoke wild_index) json_loads reported tt
      = (Ok s1, tt) /\
    memories s1 = [] /\
    memory_indexes_to_update s1 = PList [PInt 0] /\
    modification_router s1 = Goto N_memory_modification_node /\
    run wild_index 4 divide_two_numbers [PInt 10; PInt 0] tt
      = Raised (mkExc IndexError "list index out of range").
Proof. eexists. repeat split; reflexivity. Qed.

Lemma llm_invoke_answers (script : Script) (p : Prompt) (w : unit) :
  exists r w', llm_invoke script p w = (Ok r, w').
Proof. by eexists _, _. Qed.

Lemma C1_witness :
  llm_invoke wild_index
    (MemorySearchPrompt (bug_report reported) (memories reported)) tt
    = (Ok "[0]", tt) /\
  json_loads "[0]" = Ok (PList [PInt 0]) /\
  existsb (invalid_index (length (memories reported))) [PInt 0] = true /\
  exists s1 e outputs steps,
    memory_search_node (llm_invoke wild_index) json_loads reported tt
      = (Ok s1, tt) /\
    memory_indexes_to_update s1 = PList [PInt 0] /\
    modification_router s1 = Goto N_memory_modification_node /\
    (exc_class e = IndexError \/ exc_class e = TypeError) /\
    Forall (fun o : Node * State => o.1 <> N_memory_generation_node) outputs /\
    forall fuel,
      Scenario.stream wild_index (steps + fuel) N_memory_search_node reported tt
        = (outputs, Crashed e).
Proof.
  split; [reflexivity|]. split; [reflexivity|]. split; [reflexivity|].
  apply (C1_unvalidated_index_leaves_the_run call (llm_invoke wild_index)
           json_loads exec reported tt tt "[0]" [PInt 0]).
  - reflexivity.
  - reflexivity.
  - reflexivity.
  - intros b m w0. apply llm_invoke_answers.
Defined.

(** ** C2 *)

(** Under [hopeless] the run keeps the failing function for ever. *)
Lemma hopeless_never_finished (fuel : nat) (n : Node) (s : State) :
  function s = divide_two_numbers ->
  arguments s = [PInt 10; PInt 0] ->
  new_function_string s = "" \/ new_function_string s = divide_source ->
  (Scenario.stream hopeless fuel n s tt).2 <> Finished.
Proof.
  intros Hf Ha Hc.
  apply (stream_never_finished call (llm_invoke hopeless) json_loads exec
           (fun s0 => function s0 = divide_two_numbers /\
                      arguments s0 = [PInt 10; PInt 0] /\
                      (new_function_string s0 = "" \/
                       new_function_string s0 = divide_source)));
    [| |done].
  - intros n0 s0 [] s' [] (Hf0 & Ha0 & Hc0) Hnode.
    destruct (node_fn_frame _ _ _ _ _ _ _ _ _ Hnode)
      as (Hargs & _ & Hfun & _ & _ & Hcode).
    split; [|split; [congruence|]].
    + destruct (decide (n0 = N_fix_code)) as [->|Hn]; [|by rewrite Hfun].
      change (fix_code exec s0 tt = (Ok s', tt)) in Hnode.
      destruct (fix_code_function _ _ _ _ _ Hnode)
        as [->|(ns & Hexec & Hlook)]; [done|].
      destruct Hc0 as [Hc0|Hc0]; rewrite Hc0 in Hexec;
        unfold exec, lift in Hexec; cbn in Hexec; simplify_eq.
      by apply lookup_singleton_Some in Hlook as [_ <-].
    + destruct (decide (n0 = N_update_code)) as [->|Hn];
        [|by rewrite Hcode].
      right. cbn in Hnode. unfold ret in Hnode. by simplify_eq.
  - intros s0 [] (Hf0 & Ha0 & _). rewrite Hf0, Ha0. by eexists _, _.
Qed.

(** The reasoning service keeps proposing a definition that fails like the
    first one. After sixty node executions, ten of them of the
    fix-application node, the run is about to invoke the operation an
    eleventh time, and it never reaches the terminal state. *)
Lemma C2_counterexample :
  (Scenario.stream hopeless 60 N_run_code started tt).2 = Running N_run_code /\
  length (filter (fun o : Node * State => o.1 = N_fix_code)
            (Scenario.stream hopeless 60 N_run_code started tt).1) = 10 /\
  ~ exists fuel outputs,
      Scenario.stream hopeless fuel N_run_code started tt = (outputs, Finished).
Proof.
  split; [by vm_compute|]. split; [by vm_compute|].
  intros (fuel & outputs & Hrun).
  apply (hopeless_never_finished fuel N_run_code started); [done|done|by left|].
  by rewrite Hrun.
Qed.

Lemma C2_witness :
  (forall code w0 namespace w1 f,
     exec code w0 = (Ok namespace, w1) ->
     namespace !! "divide_two_numbers" = Some f -> True) /\
  (forall f w0, True ->
     exists e w1, call f (arguments no_arguments) w0 = (Raise e, w1)) /\
  True /\
  (Scenario.stream hopeless 25 entry_point no_arguments tt).2 <> Finished.
Proof.
  split; [done|]. split; [intros f [] _; by eexists _, _|]. split; [done|].
  apply (C2_failing_operation_never_terminates call (llm_invoke hopeless)
           json_loads exec (fun _ => True) no_arguments tt 25).
  - done.
  - intros f [] _. by eexists _, _.
  - done.
Defined.

(** ** C3 *)

(** The fix-application node takes the failure flag from true to false
    without any invocation of the operation (it does not even take the
    invoker as a parameter); and the run-target node, handed a state whose
    flag is set, leaves it set although the invocation succeeds. *)
Lemma C3_counterexample :
  error proposed = true /\
  (exists s', fix_code exec proposed tt = (Ok s', tt) /\ error s' = false) /\
  error flagged = true /\
  call (function flagged) (arguments flagged) tt
    = (Ok (PStr "Error: division by zero"), tt) /\
  (exists s', run_code call flagged tt = (Ok s', tt) /\ error s' = true).
Proof.
  split; [reflexivity|]. split; [by eexists|]. split; [reflexivity|].
  split; [reflexivity|]. by eexists.
Qed.

Lemma C3_witness :
  Scenario.node_fn heals N_fix_code proposed tt = (Ok installed, tt) /\
  (error proposed = true -> error installed = false ->
     N_fix_code = N_fix_code /\
     exists namespace,
       exec (new_function_string proposed) tt = (Ok namespace, tt) /\
       namespace !! "divide_two_numbers" = Some (function installed)) /\
  (error proposed = false -> error installed = true ->
     N_fix_code = N_run_code /\
     exists e, call (function proposed) (arguments proposed) tt = (Raise e, tt) /\
               is_Exception e = true) /\
  (N_fix_code = N_run_code ->
     (forall e, call (function proposed) (arguments proposed) tt = (Raise e, tt) ->
                error installed = true) /\
     (forall v, call (function proposed) (arguments proposed) tt = (Ok v, tt) ->
                error installed = error proposed)).
Proof.
  split; [reflexivity|].
  apply (C3_failure_flag_transitions call (llm_invoke heals) json_loads exec
           N_fix_code proposed installed tt tt).
  reflexivity.
Defined.

(** ** C4 *)

(** C4, at an input where the code departs from it. The target is
    [modulo_two_numbers], called on [(10, 0)]; the reasoning service
    answers with a working definition of that very name. The state
    [proposed_modulo] is the fifth output of the run. Loading the text binds
    [modulo_two_numbers], which is what the design document would install;
    [fix_code] looks up [divide_two_numbers] instead, finds nothing, and
    hands the state back with the old operation and the flag still set. *)
Theorem C4_fix_code_ignores_the_operation_name :
  (Scenario.stream other_name 5 N_run_code
     (initial_state modulo_two_numbers (source modulo_two_numbers)
        [PInt 10; PInt 0]) tt).1 !! 4
    = Some (N_update_code, proposed_modulo) /\
  name_of (function proposed_modulo) = "modulo_two_numbers" /\
  exec (new_function_string proposed_modulo) tt
    = (Ok {[ "modulo_two_numbers" := modulo_two_numbers_fixed ]}, tt) /\
  apply_fix_spec exec name_of proposed_modulo tt
    = (Ok (set_function modulo_two_numbers_fixed proposed_modulo), tt) /\
  fix_code exec proposed_modulo tt = (Ok proposed_modulo, tt) /\
  function proposed_modulo = modulo_two_numbers /\
  error proposed_modulo = true.
Proof. repeat split; reflexivity. Qed.

(** ** C5 *)

Lemma C5_witness :
  getsource divide_two_numbers = Ok (source divide_two_numbers) /\
  call divide_two_numbers [PInt 10; PInt 3] tt = (Ok (PInt 3), tt) /\
  exists s,
    Scenario.stream heals 1 entry_point
      (initial_state divide_two_numbers (source divide_two_numbers)
         [PInt 10; PInt 3]) tt
      = ([(N_run_code, s)], Finished) /\
    run heals 1 divide_two_numbers [PInt 10; PInt 3] tt
      = Returned (N_run_code, s) /\
    s = initial_state divide_two_numbers (source divide_two_numbers)
          [PInt 10; PInt 3] /\
    error s = false /\ bug_report s = "" /\ new_function_string s = "".
Proof.
  split; [reflexivity|]. split; [reflexivity|].
  apply (C5_success_on_first_invocation call getsource (llm_invoke heals)
           json_loads exec divide_two_numbers [PInt 10; PInt 3]
           (source divide_two_numbers) tt tt (PInt 3) 0); reflexivity.
Defined.

(** ** C6 *)

(** The state handed to the second [run_code] of the healing session still
    carries the description of the first failure; the invocation succeeds
    and the description is returned as it was. With the flag set as well
    ([flagged]), the flag is returned set. *)
Lemma C6_counterexample :
  call (function installed) (arguments installed) tt
    = (Ok (PStr "Error: division by zero"), tt) /\
  (exists s', run_code call installed tt = (Ok s', tt) /\
     error_description s' = "integer division or modulo by zero") /\
  call (function flagged) (arguments flagged) tt
    = (Ok (PStr "Error: division by zero"), tt) /\
  (exists s', run_code call flagged tt = (Ok s', tt) /\
     error s' = true /\
     error_description s' = "integer division or modulo by zero").
Proof.
  split; [reflexivity|]. split; [by eexists|]. split; [reflexivity|].
  by eexists.
Qed.

Lemma C6_witness :
  call (function installed) (arguments installed) tt
    = (Ok (PStr "Error: division by zero"), tt) /\
  exists s', run_code call installed tt = (Ok s', tt) /\
    function s' = function installed /\
    error s' = error installed /\
    error_description s' = error_description installed /\
    s' = installed.
Proof.
  split; [reflexivity|].
  apply (C6_run_code_success_keeps_state call installed tt tt
           (PStr "Error: division by zero")).
  reflexivity.
Defined.

(** ** C7 *)

Lemma C7_witness :
  memory_indexes_to_update two_pending = PList [PInt 1; PInt 2] /\
  (0 <= 1 < Z.of_nat (length (memories two_pending)))%Z /\
  memories two_pending !! Z.to_nat 1 = Some "# d ## e ### f" /\
  llm_invoke heals
    (MemoryModificationPrompt (bug_report two_pending) "# d ## e ### f")
    tt
    = (Ok "# function ## ZeroDivisionError ### b is 0, seen again", tt) /\
  exists s',
    memory_modification_node (llm_invoke heals) two_pending tt = (Ok s', tt) /\
    memory_indexes_to_update s' = PList [PInt 2] /\
    memories s' !! Z.to_nat 1
      = Some "# function ## ZeroDivisionError ### b is 0, seen again" /\
    (forall j, j <> Z.to_nat 1 ->
               memories s' !! j = memories two_pending !! j) /\
    length (memories s') = length (memories two_pending).
Proof.
  split; [reflexivity|]. split; [cbn; lia|]. split; [reflexivity|].
  split; [reflexivity|].
  apply (C7_update_replaces_one_record (llm_invoke heals)
           two_pending tt tt 1 [PInt 2]
           "# d ## e ### f"
           "# function ## ZeroDivisionError ### b is 0, seen again").
  - reflexivity.
  - cbn; lia.
  - reflexivity.
  - reflexivity.
Defined.

(** ** C8 *)

(** In the healing session the fourth output is that of the
    memory-generation node, and the one before it is the memory search that
    left the queue empty. *)
Lemma C8_witness :
  (Scenario.stream heals 7 entry_point started tt).1 !! 2
    = Some (N_memory_search_node, reported) /\
  (Scenario.stream heals 7 entry_point started tt).1 !! 3 =
    Some (N_memory_generation_node,
          set_memories ["# function ## ZeroDivisionError ### b is 0"] reported) /\
  routed (N_memory_search_node, reported)
    (N_memory_generation_node,
     set_memories ["# function ## ZeroDivisionError ### b is 0"] reported).
Proof.
  split; [reflexivity|]. split; [reflexivity|].
  apply (proj2 (C8_generation_only_after_empty_search call (llm_invoke heals)
                  json_loads exec 7 started tt) 2); reflexivity.
Defined.

(** ** C9 *)

Lemma C9_witness :
  call (function started) (arguments started) tt = (Raise zero_division, tt) /\
  is_Exception zero_division = true /\
  exists s', run_code call started tt = (Ok s', tt) /\
    error s' = true /\
    error_description s' = exc_str zero_division /\
    arguments s' = arguments started /\
    function s' = function started /\
    memories s' = memories started.
Proof.
  split; [reflexivity|]. split; [reflexivity|].
  apply (C9_run_code_failure_frame call started tt tt zero_division);
    reflexivity.
Defined.

(** ** C10 *)

Lemma C10_witness :
  memory_indexes_to_update last_pending = PList [PInt (-1)] /\
  (- Z.of_nat (length (memories last_pending)) <= -1 <= -1)%Z /\
  memories last_pending !! Z.to_nat (Z.of_nat (length (memories last_pending)) + -1)
    = Some "# g ## h ### i" /\
  llm_invoke heals
    (MemoryModificationPrompt (bug_report last_pending) "# g ## h ### i") tt
    = (Ok "# function ## ZeroDivisionError ### b is 0, seen again", tt) /\
  exists s', memory_modification_node (llm_invoke heals) last_pending tt = (Ok s', tt) /\
    memory_indexes_to_update s' = PList [] /\
    memories s' =
      <[Z.to_nat (Z.of_nat (length (memories last_pending)) + -1) :=
          "# function ## ZeroDivisionError ### b is 0, seen again"]>
        (memories last_pending) /\
    memories s' !! Z.to_nat (Z.of_nat (length (memories last_pending)) + -1)
      = Some "# function ## ZeroDivisionError ### b is 0, seen again" /\
    (forall j, j <> Z.to_nat (Z.of_nat (length (memories last_pending)) + -1) ->
               memories s' !! j = memories last_pending !! j) /\
    length (memories s') = length (memories last_pending).
Proof.
  split; [reflexivity|]. split; [cbn; lia|]. split; [reflexivity|].
  split; [reflexivity|].
  apply (C10_update_accepts_negative_index (llm_invoke heals)
           last_pending tt tt (-1) []
           "# g ## h ### i"
           "# function ## ZeroDivisionError ### b is 0, seen again").
  - reflexivity.
  - cbn; lia.
  - reflexivity.
  - reflexivity.
Defined.

(** The last of three records, addressed as [-1]. *)
Example negative_index_updates_last_record :
  exists s',
    memory_modification_node (llm_invoke heals) last_pending tt
      = (Ok s', tt) /\
    memories s' = ["# a ## b ### c"; "# d ## e ### f";
                   "# function ## ZeroDivisionError ### b is 0, seen again"].
Proof. by eexists. Qed.

(** * More sessions, checked *)

Lemma returned_state_is_healthy_witness :
  run heals 7 divide_two_numbers [PInt 10; PInt 0] tt
    = Returned (N_run_code, installed) /\
  N_run_code = N_run_code /\ error installed = false.
Proof.
  split; [reflexivity|].
  apply (returned_state_is_healthy call getsource (llm_invoke heals)
           json_loads exec 7 divide_two_numbers [PInt 10; PInt 0] tt
           N_run_code installed).
  reflexivity.
Defined.

Lemma store_grows_by_generations_only_witness :
  (Scenario.stream heals 7 N_run_code started tt).1 !! 3
    = Some (N_memory_generation_node,
            set_memories ["# function ## ZeroDivisionError ### b is 0"]
              reported) /\
  length (memories
            (N_memory_generation_node,
             set_memories ["# function ## ZeroDivisionError ### b is 0"]
               reported).2)
    = length (memories started)
      + generations (take 4 (Scenario.stream heals 7 N_run_code started tt).1).
Proof.
  split; [reflexivity|].
  apply (store_grows_by_generations_only call (llm_invoke heals) json_loads
           exec 7 N_run_code started tt 3).
  reflexivity.
Defined.

Lemma fix_code_absorbs_failed_fix_witness :
  ((exists e, exec (new_function_string proposed_modulo) tt = (Raise e, tt) /\
              is_Exception e = true) \/
   (exists namespace,
      exec (new_function_string proposed_modulo) tt = (Ok namespace, tt) /\
      namespace !! "divide_two_numbers" = None)) /\
  fix_code exec proposed_modulo tt = (Ok proposed_modulo, tt).
Proof.
  assert (H : (exists e, exec (new_function_string proposed_modulo) tt
                           = (Raise e, tt) /\ is_Exception e = true) \/
              (exists namespace,
                 exec (new_function_string proposed_modulo) tt
                   = (Ok namespace, tt) /\
                 namespace !! "divide_two_numbers" = None)).
  { right. eexists. split; reflexivity. }
  split; [exact H|].
  exact (fix_code_absorbs_failed_fix exec proposed_modulo tt tt H).
Defined.

Lemma one_cycle_heals_witness :
  call (function started) (arguments started) tt = (Raise zero_division, tt) /\
  is_Exception zero_division = true /\
  llm_invoke heals
    (BugReportPrompt (function_string started) (exc_str zero_division)) tt
    = (Ok "ZeroDivisionError when b is 0", tt) /\
  llm_invoke heals
    (MemorySearchPrompt "ZeroDivisionError when b is 0" (memories started)) tt
    = (Ok "[]", tt) /\
  json_loads "[]" = Ok (PList []) /\
  truthy (PList []) = false /\
  llm_invoke heals (MemoryGenerationPrompt "ZeroDivisionError when b is 0") tt
    = (Ok "# function ## ZeroDivisionError ### b is 0", tt) /\
  llm_invoke heals
    (UpdateCodePrompt (function_string started) (exc_str zero_division)) tt
    = (Ok divide_fix, tt) /\
  exec divide_fix tt
    = (Ok {[ "divide_two_numbers" := divide_two_numbers_fixed ]}, tt) /\
  (({[ "divide_two_numbers" := divide_two_numbers_fixed ]} : gmap string Fn)
     !! "divide_two_numbers") = Some divide_two_numbers_fixed /\
  call divide_two_numbers_fixed (arguments started) tt
    = (Ok (PStr "Error: division by zero"), tt) /\
  exists outputs final,
    Scenario.stream heals (7 + 0) entry_point started tt
      = (outputs, Finished) /\
    outputs.*1 = [N_run_code; N_bug_report_node; N_memory_search_node;
                  N_memory_generation_node; N_update_code; N_fix_code;
                  N_run_code] /\
    last outputs = Some (N_run_code, final) /\
    function final = divide_two_numbers_fixed /\
    error final = false /\
    error_description final = exc_str zero_division /\
    bug_report final = "ZeroDivisionError when b is 0" /\
    new_function_string final = divide_fix /\
    memories final
      = (memories started
           ++ ["# function ## ZeroDivisionError ### b is 0"])%list /\
    memory_indexes_to_update final = PList [] /\
    arguments final = arguments started.
Proof.
  do 11 (split; [reflexivity|]).
  apply (one_cycle_heals call (llm_invoke heals) json_loads exec started
           zero_division "ZeroDivisionError when b is 0" "[]"
           "# function ## ZeroDivisionError ### b is 0" divide_fix (PList [])
           (PStr "Error: division by zero")
           {[ "divide_two_numbers" := divide_two_numbers_fixed ]}
           divide_two_numbers_fixed tt tt tt tt tt tt tt tt 0);
    reflexivity.
Defined.

Lemma non_list_search_answer_stops_the_run_witness :
  llm_invoke Sessions.bare_number
    (MemorySearchPrompt (bug_report reported) (memories reported)) tt
    = (Ok "5", tt) /\
  Sessions.json_loads "5" = Ok (PInt 5) /\
  truthy (PInt 5) = true /\
  (forall l, PInt 5 <> PList l) /\
  exists e,
    Sessions.bare_number_stream (2 + 0) N_memory_search_node reported tt
      = ([(N_memory_search_node,
           set_memory_indexes_to_update (PInt 5) reported)], Crashed e) /\
    (exc_class e = KeyError \/ exc_class e = AttributeError).
Proof.
  split; [reflexivity|]. split; [reflexivity|]. split; [reflexivity|].
  split; [discriminate|].
  apply (non_list_search_answer_stops_the_run call
           (llm_invoke Sessions.bare_number) Sessions.json_loads exec
           reported tt tt "5" (PInt 5) 0); try reflexivity.
  discriminate.
Defined.

Lemma generator_writes_one_memory_per_label_witness :
  Sessions.generator_llm
    (MemoryGenerator.MemoryTypePrompt
       (MemoryGenerator.interaction Sessions.created)
       (MemoryGenerator.memory_schema Sessions.created)) tt
    = (Ok "## sessions ### dates|## goals ### plans", tt) /\
  (forall i l w0, exists r w',
     Sessions.generator_llm (MemoryGenerator.MemoryPrompt i l) w0
       = (Ok r, w')) /\
  exists outputs final,
    (forall fuel,
       MemoryGenerator.stream Sessions.generator_llm
         (2 + MemoryGenerator.occurrences "|"
                "## sessions ### dates|## goals ### plans" + fuel)
         Sessions.created tt = (outputs, Done)) /\
    length outputs
      = 2 + MemoryGenerator.occurrences "|"
              "## sessions ### dates|## goals ### plans" /\
    last outputs = Some (MemoryGenerator.N_memory_generation_node, final) /\
    MemoryGenerator.memory_labels final = [] /\
    length (MemoryGenerator.memories final)
      = length (MemoryGenerator.memories Sessions.created) + 1
        + MemoryGenerator.occurrences "|"
            "## sessions ### dates|## goals ### plans".
Proof.
  split; [reflexivity|]. split; [intros i l []; by eexists _, _|].
  apply (generator_writes_one_memory_per_label Sessions.generator_llm
           Sessions.created tt tt "## sessions ### dates|## goals ### plans").
  - reflexivity.
  - intros i l []. by eexists _, _.
Defined.

Lemma memory_system_nothing_to_update_witness :
  Sessions.memory_llm "[]"
    (MemorySystem.MemorySearchPrompt "Actually, red" Sessions.three_colours) tt
    = (Ok "[]", tt) /\
  Sessions.json_loads "[]" = Ok (PList []) /\
  truthy (PList []) = false /\
  MemorySystem.run_memory_system (Sessions.memory_llm "[]") Sessions.json_loads
    1 "Actually, red" [] Sessions.three_colours tt
    = Returns (MemorySystem.N_memory_search_node,
               MemorySystem.mkState "Actually, red" [] []
                 Sessions.three_colours (PList [])).
Proof.
  do 3 (split; [reflexivity|]).
  apply (memory_system_nothing_to_update (Sessions.memory_llm "[]")
           Sessions.json_loads 0 "Actually, red" [] Sessions.three_colours
           tt tt "[]" (PList [])); reflexivity.
Defined.

Lemma memory_system_updates_listed_records_witness :
  Sessions.memory_llm "[2, 0]"
    (MemorySystem.MemorySearchPrompt
       (MemorySystem.interaction Sessions.colour_state)
       (MemorySystem.memories Sessions.colour_state)) tt
    = (Ok "[2, 0]", tt) /\
  Sessions.json_loads "[2, 0]" = Ok (PList [PInt 2; PInt 0]) /\
  Forall (fun x =>
            invalid_index
              (length (MemorySystem.memories Sessions.colour_state)) x = false)
    [PInt 2; PInt 0] /\
  (forall i m w0, exists r w1,
     Sessions.memory_llm "[2, 0]"
       (MemorySystem.MemoryModificationPrompt i m) w0 = (Ok r, w1)) /\
  exists outputs n final,
    (forall fuel,
       MemorySystem.stream (Sessions.memory_llm "[2, 0]") Sessions.json_loads
         (S (length [PInt 2; PInt 0]) + fuel) Sessions.colour_state tt
         = (outputs, Done)) /\
    length outputs = S (length [PInt 2; PInt 0]) /\
    last outputs = Some (n, final) /\
    MemorySystem.memory_indexes_to_update final = PList [] /\
    length (MemorySystem.memories final)
      = length (MemorySystem.memories Sessions.colour_state) /\
    forall j,
      (forall x, x ∈ [PInt 2; PInt 0] ->
         py_index "index"
           (length (MemorySystem.memories Sessions.colour_state)) x <> Ok j) ->
      MemorySystem.memories final !! j
        = MemorySystem.memories Sessions.colour_state !! j.
Proof.
  split; [reflexivity|]. split; [reflexivity|].
  split; [by repeat constructor|].
  split; [intros i m []; by eexists _, _|].
  apply (memory_system_updates_listed_records (Sessions.memory_llm "[2, 0]")
           Sessions.json_loads Sessions.colour_state tt tt "[2, 0]"
           [PInt 2; PInt 0]).
  - reflexivity.
  - reflexivity.
  - by repeat constructor.
  - intros i m []. by eexists _, _.
Defined.

Lemma memory_system_raises_on_invalid_index_witness :
  Sessions.memory_llm "[1, 7]"
    (MemorySystem.MemorySearchPrompt "Actually, red" Sessions.three_colours) tt
    = (Ok "[1, 7]", tt) /\
  Sessions.json_loads "[1, 7]" = Ok (PList [PInt 1; PInt 7]) /\
  existsb (invalid_index (length Sessions.three_colours)) [PInt 1; PInt 7]
    = true /\
  (forall i m w0, exists r w1,
     Sessions.memory_llm "[1, 7]"
       (MemorySystem.MemoryModificationPrompt i m) w0 = (Ok r, w1)) /\
  exists e steps,
    (exc_class e = IndexError \/ exc_class e = TypeError) /\
    forall fuel,
      MemorySystem.run_memory_system (Sessions.memory_llm "[1, 7]")
        Sessions.json_loads (steps + fuel) "Actually, red" []
        Sessions.three_colours tt = Raises e.
Proof.
  do 3 (split; [reflexivity|]).
  split; [intros i m []; by eexists _, _|].
  apply (memory_system_raises_on_invalid_index (Sessions.memory_llm "[1, 7]")
           Sessions.json_loads "Actually, red" [] Sessions.three_colours
           tt tt "[1, 7]" [PInt 1; PInt 7]).
  - reflexivity.
  - reflexivity.
  - reflexivity.
  - intros i m []. by eexists _, _.
Defined.

Lemma stop_word_q : "q" ∈ SchemaGenerator.stop_words.
Proof. by repeat constructor. Qed.

Lemma yes_is_no_stop_word : "yes" ∉ SchemaGenerator.stop_words.
Proof.
  intros H. apply list_elem_of_In in H. cbn in H.
  repeat (destruct H as [H|H]; [discriminate|]). done.
Qed.

Lemma schema_generator_finished_run_witness :
  SchemaGenerator.stream Sessions.schema_llm Sessions.typed 5
    Sessions.tutoring Sessions.one_more_round
    = (Sessions.one_more_round_outputs, Done) /\
  exists k final,
    length Sessions.one_more_round_outputs = 2 * k + 1 /\
    last Sessions.one_more_round_outputs
      = Some (SchemaGenerator.N_schema_generation_node, final) /\
    length (SchemaGenerator.memory_schema final)
      = length (SchemaGenerator.memory_schema Sessions.tutoring) + k + 1.
Proof.
  split; [reflexivity|].
  apply (schema_generator_finished_run Sessions.schema_llm Sessions.typed 5
           Sessions.tutoring Sessions.one_more_round
           Sessions.one_more_round_outputs).
  reflexivity.
Defined.

Lemma schema_generator_stops_when_told_witness :
  Sessions.schema_llm (SchemaGenerator.SchemaPrompt "tutoring" [] None)
    ["q"; "unread"]
    = (Ok "# semantic ## subjects", ["q"; "unread"]) /\
  Sessions.typed "Do you wish to iterate over this schema? (yes or no)"
    ["q"; "unread"] = (Ok "q", ["unread"]) /\
  "q" ∈ SchemaGenerator.stop_words /\
  SchemaGenerator.stream Sessions.schema_llm Sessions.typed 1
    (SchemaGenerator.mkState "tutoring" [] None) ["q"; "unread"]
    = ([(SchemaGenerator.N_schema_generation_node,
         SchemaGenerator.mkState "tutoring" ["# semantic ## subjects"] None)],
       Done) /\
  SchemaGenerator.run_schema_generator Sessions.schema_llm Sessions.typed 1
    "tutoring" ["q"; "unread"] = Returns tt.
Proof.
  split; [reflexivity|]. split; [reflexivity|]. split; [exact stop_word_q|].
  apply (schema_generator_stops_when_told Sessions.schema_llm Sessions.typed 0
           "tutoring" "# semantic ## subjects" "q"
           ["q"; "unread"] ["q"; "unread"] ["unread"]).
  - reflexivity.
  - reflexivity.
  - exact stop_word_q.
Defined.

Lemma schema_generator_one_iteration_witness :
  Sessions.schema_llm (SchemaGenerator.SchemaPrompt "tutoring" [] None)
    Sessions.one_more_round
    = (Ok "# semantic ## subjects", Sessions.one_more_round) /\
  Sessions.typed "Do you wish to iterate over this schema? (yes or no)"
    Sessions.one_more_round = (Ok "yes", ["add dates"; "q"]) /\
  ("yes" ∉ SchemaGenerator.stop_words) /\
  Sessions.typed "Please provide updated instructions" ["add dates"; "q"]
    = (Ok "add dates", ["q"]) /\
  Sessions.schema_llm
    (SchemaGenerator.SchemaPrompt "tutoring" ["# semantic ## subjects"]
       (Some "add dates")) ["q"]
    = (Ok "# episodic ## add dates", ["q"]) /\
  Sessions.typed "Do you wish to iterate over this schema? (yes or no)" ["q"]
    = (Ok "q", []) /\
  "q" ∈ SchemaGenerator.stop_words /\
  SchemaGenerator.stream Sessions.schema_llm Sessions.typed (3 + 0)
    (SchemaGenerator.mkState "tutoring" [] None) Sessions.one_more_round
    = (Sessions.one_more_round_outputs, Done).
Proof.
  split; [reflexivity|]. split; [reflexivity|].
  split; [exact yes_is_no_stop_word|]. split; [reflexivity|].
  split; [reflexivity|]. split; [reflexivity|]. split; [exact stop_word_q|].
  apply (schema_generator_one_iteration Sessions.schema_llm Sessions.typed 0
           "tutoring" "# semantic ## subjects" "yes" "add dates"
           "# episodic ## add dates" "q"
           Sessions.one_more_round ["yes"; "add dates"; "q"]
           ["add dates"; "q"] ["q"] ["q"] []).
  - reflexivity.
  - reflexivity.
  - exact yes_is_no_stop_word.
  - reflexivity.
  - reflexivity.
  - reflexivity.
  - exact stop_word_q.
Defined.

Lemma first_cycle_cannot_update_witness :
  getsource divide_two_numbers = Ok (source divide_two_numbers) /\
  call divide_two_numbers [PInt 10; PInt 0] tt = (Raise zero_division, tt) /\
  is_Exception zero_division = true /\
  llm_invoke wild_index
    (BugReportPrompt (source divide_two_numbers) (exc_str zero_division)) tt
    = (Ok "ZeroDivisionError when b is 0", tt) /\
  llm_invoke wild_index
    (MemorySearchPrompt "ZeroDivisionError when b is 0" []) tt
    = (Ok "[0]", tt) /\
  json_loads "[0]" = Ok (PList [PInt 0]) /\
  exists e',
    run wild_index (4 + 0) divide_two_numbers [PInt 10; PInt 0] tt
      = Raised e' /\
    (exc_class e' = IndexError \/ exc_class e' = TypeError).
Proof.
  do 6 (split; [reflexivity|]).
  apply (first_cycle_cannot_update call getsource (llm_invoke wild_index)
           json_loads exec divide_two_numbers [PInt 10; PInt 0]
           (source divide_two_numbers) "ZeroDivisionError when b is 0" "[0]"
           zero_division (PInt 0) [] tt tt tt tt 0); reflexivity.
Defined.

Lemma one_cycle_updates_a_memory_witness :
  call (function Sessions.second_cycle) (arguments Sessions.second_cycle) tt
    = (Raise zero_division, tt) /\
  is_Exception zero_division = true /\
  llm_invoke wild_index
    (BugReportPrompt (function_string Sessions.second_cycle)
       (exc_str zero_division)) tt
    = (Ok "ZeroDivisionError when b is 0", tt) /\
  llm_invoke wild_index
    (MemorySearchPrompt "ZeroDivisionError when b is 0"
       (memories Sessions.second_cycle)) tt
    = (Ok "[0]", tt) /\
  json_loads "[0]" = Ok (PList [PInt 0]) /\
  (0 <= 0 < Z.of_nat (length (memories Sessions.second_cycle)))%Z /\
  memories Sessions.second_cycle !! Z.to_nat 0
    = Some "# function ## ZeroDivisionError ### b is 0" /\
  llm_invoke wild_index
    (MemoryModificationPrompt "ZeroDivisionError when b is 0"
       "# function ## ZeroDivisionError ### b is 0") tt
    = (Ok "# function ## ZeroDivisionError ### b is 0, seen again", tt) /\
  llm_invoke wild_index
    (UpdateCodePrompt (function_string Sessions.second_cycle)
       (exc_str zero_division)) tt
    = (Ok divide_fix, tt) /\
  exec divide_fix tt
    = (Ok {[ "divide_two_numbers" := divide_two_numbers_fixed ]}, tt) /\
  (({[ "divide_two_numbers" := divide_two_numbers_fixed ]} : gmap string Fn)
     !! "divide_two_numbers") = Some divide_two_numbers_fixed /\
  call divide_two_numbers_fixed (arguments Sessions.second_cycle) tt
    = (Ok (PStr "Error: division by zero"), tt) /\
  exists outputs final,
    Scenario.stream wild_index (7 + 0) entry_point Sessions.second_cycle tt
      = (outputs, Finished) /\
    outputs.*1 = [N_run_code; N_bug_report_node; N_memory_search_node;
                  N_memory_modification_node; N_update_code; N_fix_code;
                  N_run_code] /\
    last outputs = Some (N_run_code, final) /\
    function final = divide_two_numbers_fixed /\
    error final = false /\
    memories final
      = <[Z.to_nat 0 := "# function ## ZeroDivisionError ### b is 0, seen again"]>
          (memories Sessions.second_cycle) /\
    length (memories final) = length (memories Sessions.second_cycle) /\
    memory_indexes_to_update final = PList [].
Proof.
  do 5 (split; [reflexivity|]). split; [cbn; lia|].
  do 6 (split; [reflexivity|]).
  apply (one_cycle_updates_a_memory call (llm_invoke wild_index) json_loads
           exec Sessions.second_cycle zero_division
           "ZeroDivisionError when b is 0" "[0]"
           "# function ## ZeroDivisionError ### b is 0"
           "# function ## ZeroDivisionError ### b is 0, seen again"
           divide_fix 0 (PStr "Error: division by zero")
           {[ "divide_two_numbers" := divide_two_numbers_fixed ]}
           divide_two_numbers_fixed tt tt tt tt tt tt tt tt 0);
    try reflexivity.
  cbn; lia.
Defined.

Lemma determination_cuts_the_answer_witness :
  Sessions.generator_llm
    (MemoryGenerator.MemoryTypePrompt
       (MemoryGenerator.interaction Sessions.created)
       (MemoryGenerator.memory_schema Sessions.created)) tt
    = (Ok "## sessions ### dates|## goals ### plans", tt) /\
  exists s',
    MemoryGenerator.memory_type_determination_node Sessions.generator_llm
      Sessions.created tt = (Ok s', tt) /\
    length (MemoryGenerator.memory_labels s')
      = S (MemoryGenerator.occurrences "|"
             "## sessions ### dates|## goals ### plans") /\
    Forall (fun label => MemoryGenerator.occurrences "|" label = 0)
      (MemoryGenerator.memory_labels s') /\
    MemoryGenerator.join "|" (MemoryGenerator.memory_labels s')
      = "## sessions ### dates|## goals ### plans" /\
    MemoryGenerator.memories s' = MemoryGenerator.memories Sessions.created.
Proof.
  split; [reflexivity|].
  apply (determination_cuts_the_answer Sessions.generator_llm Sessions.created
           tt tt "## sessions ### dates|## goals ### plans").
  reflexivity.
Defined.
